(* ===== verification/_CoqProject ===== *)
-Q . S2P
Prelude.v
Units.v
Submit.v
Script.v
Ledger.v
FullSetup.v
CreateLendingPool.v
CreateAssets.v
MintTransfer.v
SetAssetMetadata.v
