(* ===== verification/Prelude.v ===== *)
(** * Kylix-Script: a verification development

    ** The program

    The repository holds five TypeScript operator scripts that set up a
    Substrate test chain through [@polkadot/api]:
    - [src/full-setup-sudo.ts]: transfer native balance to a target, then
      for each asset of a table create it and set its metadata when the
      chain has none, mint to the admin, transfer to the target, create
      its lending pool and activate the pool through [sudo];
    - [src/create-lending-pool.ts]: native transfer, then one pool per
      asset, resolving each transaction on [Finalized];
    - [src/lending-pool/create-assets.ts], [src/lending-pool/mint-transfer.ts],
      [src/set-asset-metadata.ts]: the creation, minting and metadata
      steps on their own.
    Every step is the same pattern: build a call, [signAndSend] it with a
    status callback wrapped in a JavaScript promise, [await] the promise;
    the callback rejects on a dispatch error (decoded through the
    metadata registry for module errors) and resolves on [InBlock] (or
    [Finalized]).  The chain is the environment: the scripts only call it.

    ** The files

    - [Prelude] (this file): notation ([+++] for string templates in
      [kylix_scope]), the settle-once promise state [Settled], the hint
      databases [kylix] and [kylix_rw], generic lemmas ([ends_with]).
    - [Units]: [toChainUnits] (with bn.js's [|n| < 2^53] assertion of
      [new BN(number)]), the [AssetConfig]/[AssetInfo] interfaces and the
      five asset tables.  Theorems: exactness of the conversion for every
      safe amount and number of decimals, failure on every unsafe amount,
      the [u128] bound (mint amounts fit exactly up to 32 decimals); the
      tables' well-formedness and agreement are checked by evaluation.
    - [Submit]: the status notification ([ExtrinsicStatus],
      [DispatchError], [SubmittableResult]), the registry interface
      ([Registry], a type class), the two callback forms
      [on_status_inblock] (full-setup-sudo.ts lines 54-67 and every other
      in-block call site) and [on_status_finalized] (create-lending-pool.ts
      lines 42-52), the delivery of a stream ([deliver]) and the await
      point ([await_settle]); the transaction pool's lifecycle ([lc_step],
      [lifecycle]) is the node's protocol.  Theorems, for every stream
      that follows the lifecycle: the in-block verdict and decoding at
      the first inclusion, the hang when a transaction is never included,
      the finalized policy's verdict, refinement of the specification's
      finalized-only contract when no re-organisation happens, and the
      divergences when one does.
    - [Script]: the calls ([Call]), the node interface ([Node], a type
      class: queries, registry, key derivation, [submit] returning the
      notification stream), the script's [World] (node state, console
      output, transactions sent, the manual [nonce] counter, connection)
      and the state-and-exception monad [M] with its primitives
      ([send_and_await], [send_with_nonce] for [{ nonce: nonce++ }],
      [for_each] for a loop without [try], [for_each_try_break] for
      [try ... catch { break }], [catch_top] for [main().catch]).  A
      promise that never settles is the outcome [Blocked].  Generic
      reasoning: [preserves] (invariants of every run, with hints),
      [preserves_live] (of every run that does not block), [wp] (weakest
      preconditions of runs that return, tactic [wp_run]) and [wpx] (with
      an exceptional postcondition, tactic [wpx_run]), and the loops that
      stop at a failing element ([wpx_for_each_fail_at],
      [wp_for_each_try_break_fail_at]).
    - [Ledger]: the environment, instances of [Node]: [LedgerNode], a
      development chain with the balances, assets, sudo and lending
      pallets as FRAME implements them, a nonce-checking pool and a
      per-submission network [Fate]; [TestNode present fail], which
      includes and finalizes every transaction with the dispatch result
      [fail] gives and on which the assets [present] names exist
      ([AcceptNodeWith] when nothing fails).  They witness the theorems'
      hypotheses.
    - [FullSetup]: [src/full-setup-sudo.ts] as written ([FullSetup.main],
      [setup_asset], [create_if_absent], ...).  Theorems: the nonces are
      consecutive from the chain's next index in every run against any
      node; on the ledger, from any chain state and whatever the network
      does, a run that does not block keeps its counter equal to the
      chain's next nonce and advances that nonce by the number of
      transactions sent; each asset's body sends exactly the
      specification's calls against a node that includes everything;
      every run blocks or returns, and when it returns the success banner
      is printed whenever the loop ended (also after an error) unless the
      native transfer failed.
    - [CreateLendingPool]: [src/create-lending-pool.ts] ([create_pool],
      [on_pool_error], [main]).  Theorems: the calls sent against a node
      that finalizes everything; against any node, a failing pool stops
      the loop and the success line is printed anyway.
    - [CreateAssets]: [src/lending-pool/create-assets.ts] ([create_asset],
      [main]).  Theorems: nothing is sent when every asset exists (any
      node); against any node, a failing creation escapes the loop to
      [main().catch] and the connection stays open.
    - [MintTransfer]: [src/lending-pool/mint-transfer.ts]
      ([process_asset], its own [toChainUnits], [main]).  Theorems: the
      calls sent for present and absent assets; a failing mint escapes
      to [main().catch] and the connection stays open; on the ledger,
      from any chain state, the receiver gains the whole mint because it
      is the admin (the transfer is a self-transfer).
    - [SetAssetMetadata]: [src/set-asset-metadata.ts] ([set_metadata],
      [main]).  Theorems: the calls sent and the closing line last; a
      failing call escapes to [main().catch] and the connection stays
      open.

    ** Choices and bounds

    - Integers are [Z]: bn.js is exact, and the JavaScript numbers of the
      tables are small integers; [new BN(n)] keeps its [2^53] assertion.
      The runtime widths are those of the reference runtime ([u128]
      balances, [u32] ids, [u8] decimals).
    - A subscription is a finite list of notifications: what the node
      will ever send.  Liveness is stated on it: a promise settles iff a
      settling notification is in the list; otherwise the script waits
      forever ([Blocked]).  No fuel is needed: every definition is
      structurally recursive on the list or on the asset table.
    - The node state the script sees after a transaction is the one
      after its inclusion; later notifications of a settled promise only
      print, which [Submit] proves, so the script's sequential output
      keeps the lines printed up to the settling notification.
    - Invariants come in two strengths: [preserves] holds after every
      run, [preserves_live] after every run that does not block (a
      dropped transaction leaves the chain's nonce where it was while the
      script waits forever).
    - Theorems quantify over every node (the [Node] class) and state
      what they need of it as hypotheses on the submissions of the calls
      the script makes ([includes_ok], [includes_err], [finalizes_ok],
      [fails_fin]); the test nodes show the hypotheses satisfiable.
    - [sleep] calls, the emoji of the log lines and the printing of error
      objects by the console are not modelled: none is observable in the
      properties.

    ** Not modelled, and the plan

    The WebSocket transport, [ApiPromise] and sr25519 key derivation are
    library code; they are the [Node] interface, and the chain's pallets
    are the reference [Ledger], a model of the runtime, not of the
    repository.  [sleep] is not modelled.  Left for later: the other
    scripts' whole runs against [LedgerNode] over all chain states (so
    far they are proved against any node that includes everything and
    run on concrete chains), and reorganisations on [LedgerNode] (its
    network never retracts a block; [Submit] covers them on streams). *)

(** The prelude: notation, the promise state, automation and generic
    lemmas shared by every component. *)

From Stdlib Require Export ZArith Lia String.
From stdpp Require Export base list strings pretty.

Declare Scope kylix_scope.
Delimit Scope kylix_scope with kylix.
Open Scope kylix_scope.

(** JavaScript template literals concatenate strings; [+++] is
    [String.append], kept apart from stdpp's list [++]. *)
Notation "s1 +++ s2" := (String.append s1 s2)
  (at level 60, right associativity) : kylix_scope.

Create HintDb kylix.
Create Rewrite HintDb kylix_rw.

(** ** The JavaScript promise

    A [Promise] created by [new Promise((resolve, reject) => ...)] is
    pending until the first call of [resolve] or [reject]; every later
    call is ignored.  The value a rejection carries is kept. *)
Inductive Settled (E : Type) :=
| Pending
| Resolved
| Rejected (e : E).
Arguments Pending {E}.
Arguments Resolved {E}.
Arguments Rejected {E} e.

Definition resolve {E} (p : Settled E) : Settled E :=
  match p with Pending => Resolved | q => q end.

Definition reject {E} (e : E) (p : Settled E) : Settled E :=
  match p with Pending => Rejected e | q => q end.

Definition is_settled {E} (p : Settled E) : bool :=
  match p with Pending => false | _ => true end.

Lemma resolve_settled {E} (p : Settled E) :
  is_settled p = true -> resolve p = p.
Proof. by destruct p. Qed.

Lemma reject_settled {E} (e : E) (p : Settled E) :
  is_settled p = true -> reject e p = p.
Proof. by destruct p. Qed.

Lemma resolve_is_settled {E} (p : Settled E) : is_settled (resolve p) = true.
Proof. by destruct p. Qed.

Lemma reject_is_settled {E} (e : E) (p : Settled E) :
  is_settled (reject e p) = true.
Proof. by destruct p. Qed.

#[export] Hint Resolve resolve_is_settled reject_is_settled : kylix.
#[export] Hint Rewrite @resolve_settled @reject_settled using assumption : kylix_rw.

(** ** Generic lemmas on [Z] *)

Open Scope Z_scope.

Lemma Z_pow_pos_le (b e1 e2 : Z) :
  1 <= b -> 0 <= e1 <= e2 -> b ^ e1 <= b ^ e2.
Proof. intros Hb He. apply Z.pow_le_mono_r; lia. Qed.

Lemma Z_mul_pow_lt (a b e bound : Z) :
  0 <= a -> 1 <= b -> 0 <= e -> a * b ^ e < bound ->
  forall e', 0 <= e' <= e -> a * b ^ e' < bound.
Proof.
  intros Ha Hb He Hlt e' He'.
  pose proof (Z_pow_pos_le b e' e Hb He').
  nia.
Qed.

(** ** Generic lemmas on lists *)

(** [forallb] reflects [Forall] for a boolean predicate: the tables of
    the scripts are checked this way by evaluation. *)
Lemma forallb_Forall {A} (f : A -> bool) (l : list A) :
  forallb f l = true <-> Forall (fun x => f x = true) l.
Proof. rewrite forallb_forall, Forall_forall. setoid_rewrite list_elem_of_In. done. Qed.

Lemma concat_map_singleton {A B} (f : A -> B) (l : list A) :
  concat (map (fun a => [f a]) l) = map f l.
Proof. induction l as [|a l IH]; simpl; [done|]. by rewrite IH. Qed.

(** [l] ends with [suf]. *)
Definition ends_with {A} (l suf : list A) : Prop := exists pre, l = pre ++ suf.

Lemma ends_with_app {A} (l suf : list A) : ends_with (l ++ suf) suf.
Proof. by exists l. Qed.

(** The suffix test by evaluation: [drop] the right number of elements. *)
Lemma ends_with_drop {A} (l suf : list A) :
  drop (length l - length suf) l = suf -> ends_with l suf.
Proof.
  intros H. exists (take (length l - length suf) l).
  by rewrite <- H at 2; rewrite take_drop.
Qed.

#[export] Hint Resolve ends_with_app : kylix.

(** ** Tactics *)

(** Unfold the option and settle-once helpers and rewrite with the
    [kylix] equations. *)
Ltac kylix_simpl :=
  repeat (simpl in *; autorewrite with kylix_rw in *; try discriminate).

(** Case on the first [match] or [if] of the goal (stdpp's [case_match])
    until none is left, closing the trivial cases. *)
Ltac case_goal := repeat (case_match; simplify_eq/=; try done).
