(* ===== verification/Units.v ===== *)
(** * Units: amounts in chain units and the asset tables of the scripts

    Models [toChainUnits] of [src/full-setup-sudo.ts] (lines 28-30), the
    inline amount of [src/create-lending-pool.ts] (line 59), the
    [AssetConfig] and [AssetInfo] interfaces and the constant asset tables
    of the five scripts.  The arithmetic of bn.js is exact: a [BN] is a
    [Z].  Two behaviours of bn.js are kept: [new BN(n)] on a JavaScript
    number asserts [|n| < 2^53], and [BN.pow] reads only the magnitude of
    its exponent.  The encoding bound that matters downstream is the
    [u128] width of the [Balance] type of the assets pallet. *)

From S2P Require Import Prelude.

Open Scope Z_scope.

(** ** bn.js *)

(** [new BN(number)]: bn.js asserts [number < 0x20000000000000] after
    taking the absolute value of a negative number; the assertion throws. *)
Definition bn_of_number (n : Z) : option Z :=
  if Z.abs n <? 2 ^ 53 then Some n else None.

(** [BN.prototype.pow]: square-and-multiply over the bits of the
    exponent's words, which hold its magnitude. *)
Definition bn_pow (b e : Z) : Z := b ^ Z.abs e.

(** ** [toChainUnits] *)

(** [new BN(amount).mul(new BN(10).pow(new BN(decimals)))], the three
    constructors evaluated left to right. *)
Definition toChainUnits (amount decimals : Z) : option Z :=
  match bn_of_number amount with
  | None => None
  | Some a =>
      match bn_of_number 10 with
      | None => None
      | Some ten =>
          match bn_of_number decimals with
          | None => None
          | Some d => Some (a * bn_pow ten d)
          end
      end
  end.

(** [src/create-lending-pool.ts] line 59 writes the same formula inline
    with the literal [10_000]. *)
Definition pool_amount (decimals : Z) : option Z :=
  match bn_of_number 10000 with
  | None => None
  | Some a =>
      match bn_of_number 10 with
      | None => None
      | Some ten =>
          match bn_of_number decimals with
          | None => None
          | Some d => Some (a * bn_pow ten d)
          end
      end
  end.

(** The amounts the scripts convert. *)
Definition MINT_TOKENS : Z := 1000000.
Definition TRANSFER_TOKENS : Z := 10000.
Definition POOL_TOKENS : Z := 10000.

(** ** Widths of the runtime types *)

Definition U128_MAX : Z := 2 ^ 128 - 1.
Definition fits_u128 (v : Z) : bool := (0 <=? v) && (v <=? U128_MAX).

(** ** Asset tables *)

(** [interface AssetConfig] of [src/full-setup-sudo.ts]. *)
Module AssetConfig.
Record t := mk {
  id : Z;
  name : string;
  symbol : string;
  decimals : Z;
  poolId : Z
}.
End AssetConfig.

(** [interface AssetInfo] of [src/create-lending-pool.ts]. *)
Module AssetInfo.
Record t := mk {
  name : string;
  assetId : Z;
  decimals : Z;
  poolId : Z
}.
End AssetInfo.

(** The object literals [{ id, name, symbol, decimals }] of the three
    scripts under [src/lending-pool/] and of [src/set-asset-metadata.ts]. *)
Module AssetLit.
Record t := mk {
  id : Z;
  name : string;
  symbol : string;
  decimals : Z
}.
End AssetLit.

(** [const assets: AssetConfig[]] of [src/full-setup-sudo.ts]. *)
Definition full_setup_assets : list AssetConfig.t := [
  AssetConfig.mk 1 "USD" "USD" 1 1001;
  AssetConfig.mk 2 "Tether" "USDT" 1 1002;
  AssetConfig.mk 3 "USD Coin" "USDC" 1 1003;
  AssetConfig.mk 101 "Solana" "SOL" 9 1101;
  AssetConfig.mk 102 "Ethereum" "ETH" 18 1102;
  AssetConfig.mk 103 "Bitcoin" "BTC" 8 1103;
  AssetConfig.mk 104 "Sui" "SUI" 9 1104
].

(** [const assets: AssetInfo[]] of [src/create-lending-pool.ts]. *)
Definition lending_pool_assets : list AssetInfo.t := [
  AssetInfo.mk "USD" 1 1 1001;
  AssetInfo.mk "Tether" 2 1 1002;
  AssetInfo.mk "USD Coin" 3 1 1003;
  AssetInfo.mk "Solana" 101 9 1101;
  AssetInfo.mk "Ethereum" 102 18 1102;
  AssetInfo.mk "Bitcoin" 103 8 1103;
  AssetInfo.mk "Sui" 104 9 1104
].

(** [const assets] of [src/lending-pool/create-assets.ts]. *)
Definition create_assets_assets : list AssetLit.t := [
  AssetLit.mk 101 "Solana" "SOL" 9;
  AssetLit.mk 102 "Ethereum" "ETH" 18;
  AssetLit.mk 103 "Bitcoin" "BTC" 8;
  AssetLit.mk 104 "Sui" "SUI" 9
].

(** [const assets] of [src/lending-pool/mint-transfer.ts]. *)
Definition mint_transfer_assets : list AssetLit.t := [
  AssetLit.mk 1 "USD" "USD" 1;
  AssetLit.mk 101 "Solana" "SOL" 9;
  AssetLit.mk 102 "Ethereum" "ETH" 18;
  AssetLit.mk 103 "Bitcoin" "BTC" 8;
  AssetLit.mk 104 "Sui" "SUI" 9
].

(** [const assets] of [src/set-asset-metadata.ts]. *)
Definition set_metadata_assets : list AssetLit.t := [
  AssetLit.mk 101 "Solana" "SOL" 9;
  AssetLit.mk 104 "Sui" "SUI" 9;
  AssetLit.mk 103 "Bitcoin" "BTC" 8;
  AssetLit.mk 102 "Ethereum" "ETH" 18
].

(** ** Checks over the tables, as boolean functions *)

(** The entry of [full_setup_assets] with a given asset id. *)
Definition config_of (i : Z) : option AssetConfig.t :=
  List.find (fun a => AssetConfig.id a =? i) full_setup_assets.

(** A literal entry agrees with the full setup: same id, name, symbol and
    decimals. *)
Definition lit_agrees (a : AssetLit.t) : bool :=
  match config_of (AssetLit.id a) with
  | Some c =>
      String.eqb (AssetConfig.name c) (AssetLit.name a)
      && String.eqb (AssetConfig.symbol c) (AssetLit.symbol a)
      && (AssetConfig.decimals c =? AssetLit.decimals a)
  | None => false
  end.

(** An [AssetInfo] entry agrees with the full setup: same asset id, name,
    decimals and pool id. *)
Definition info_agrees (a : AssetInfo.t) : bool :=
  match config_of (AssetInfo.assetId a) with
  | Some c =>
      String.eqb (AssetConfig.name c) (AssetInfo.name a)
      && (AssetConfig.decimals c =? AssetInfo.decimals a)
      && (AssetConfig.poolId c =? AssetInfo.poolId a)
  | None => false
  end.

(** * Properties *)

Lemma bn_of_number_safe (n : Z) : Z.abs n < 2 ^ 53 -> bn_of_number n = Some n.
Proof. intros H. unfold bn_of_number. destruct (Z.ltb_spec (Z.abs n) (2 ^ 53)); [done | lia]. Qed.

Lemma bn_of_number_unsafe (n : Z) : 2 ^ 53 <= Z.abs n -> bn_of_number n = None.
Proof. intros H. unfold bn_of_number. destruct (Z.ltb_spec (Z.abs n) (2 ^ 53)); [lia | done]. Qed.

Lemma bn_pow_nonneg (b e : Z) : 0 <= e -> bn_pow b e = b ^ e.
Proof. intros He. unfold bn_pow. by rewrite Z.abs_eq. Qed.

Lemma pow2_53_gt_10 : 10 < 2 ^ 53.
Proof. by vm_compute. Qed.

#[export] Hint Resolve pow2_53_gt_10 : kylix.

(** The two code sites compute the same amount. *)
Lemma pool_amount_toChainUnits (d : Z) : pool_amount d = toChainUnits POOL_TOKENS d.
Proof. reflexivity. Qed.

(** The conversion is exact on safe integers; shared by the components that convert amounts. *)
Lemma toChainUnits_safe (amount decimals : Z) :
  Z.abs amount < 2 ^ 53 -> 0 <= decimals < 2 ^ 53 ->
  toChainUnits amount decimals = Some (amount * 10 ^ decimals).
Proof.
  intros Ha Hd. unfold toChainUnits.
  rewrite !bn_of_number_safe by (pose proof pow2_53_gt_10; lia).
  by rewrite bn_pow_nonneg by lia.
Qed.

(** C19: for every amount that is a safe JavaScript
    integer and every non-negative number of decimals below 2^53,
    [toChainUnits amount decimals] returns exactly [amount * 10^decimals]:
    there is no rounding at any number of decimals. *)
Theorem toChainUnits_exact (amount decimals : Z) :
  Z.abs amount < 2 ^ 53 -> 0 <= decimals < 2 ^ 53 ->
  toChainUnits amount decimals = Some (amount * 10 ^ decimals).
Proof. exact (toChainUnits_safe amount decimals). Qed.

Lemma toChainUnits_exact_witness :
  toChainUnits 10000 9 = Some (10000 * 10 ^ 9).
Proof. apply toChainUnits_exact; vm_compute; split; congruence. Defined.

(** C21: an amount whose magnitude is not a
    safe JavaScript integer makes [new BN(amount)] throw: [toChainUnits]
    fails for every number of decimals. *)
Theorem toChainUnits_unsafe_amount (amount decimals : Z) :
  2 ^ 53 <= Z.abs amount -> toChainUnits amount decimals = None.
Proof. intros Ha. unfold toChainUnits. by rewrite bn_of_number_unsafe. Qed.

Lemma toChainUnits_unsafe_amount_witness :
  toChainUnits (2 ^ 53) 9 = None.
Proof. apply toChainUnits_unsafe_amount. vm_compute. congruence. Defined.

Lemma ten_pow_38_le_u128 : 1000000 * 10 ^ 32 <= U128_MAX.
Proof. by vm_compute. Qed.

Lemma ten_pow_39_gt_u128 : U128_MAX < 1000000 * 10 ^ 33.
Proof. by vm_compute. Qed.

(** C20: the mint amount of the scripts,
    [toChainUnits(1_000_000, decimals)], is defined for every number of
    decimals in range, and it fits the [u128] balance type exactly when
    [decimals <= 32]: the tables' decimals (at most 18) are far from the
    bound, and an asset with 33 decimals would make the mint call fail to
    encode. *)
Theorem mint_amount_fits_u128_iff (decimals : Z) :
  0 <= decimals < 2 ^ 53 ->
  exists v, toChainUnits MINT_TOKENS decimals = Some v
            /\ (fits_u128 v = true <-> decimals <= 32).
Proof.
  intros Hd. eexists; split; [apply toChainUnits_safe; [by vm_compute | lia]|].
  unfold fits_u128, MINT_TOKENS.
  pose proof ten_pow_38_le_u128. pose proof ten_pow_39_gt_u128.
  assert (0 < 10 ^ decimals) by (apply Z.pow_pos_nonneg; lia).
  rewrite andb_true_iff, Z.leb_le, Z.leb_le. split.
  - intros [_ Hle]. destruct (Z.le_gt_cases decimals 32) as [|Hgt]; [done|].
    pose proof (Z_pow_pos_le 10 33 decimals ltac:(lia) ltac:(lia)). nia.
  - intros Hle. pose proof (Z_pow_pos_le 10 decimals 32 ltac:(lia) ltac:(lia)). nia.
Qed.

Lemma mint_amount_fits_u128_iff_witness :
  exists v, toChainUnits MINT_TOKENS 18 = Some v
            /\ (fits_u128 v = true <-> 18 <= 32).
Proof. apply mint_amount_fits_u128_iff. vm_compute. split; congruence. Defined.

(** Every amount a script converts for an asset of the table is defined
    and fits [u128]. *)
Definition amounts_ok (decimals : Z) : bool :=
  (0 <=? decimals) && (decimals <=? 18)
  && forallb (fun amount =>
       match toChainUnits amount decimals with
       | Some v => fits_u128 v
       | None => false
       end) [MINT_TOKENS; TRANSFER_TOKENS; POOL_TOKENS].

(** Facts about the constant tables, checked by evaluation: in every
    script's table the asset ids
    are pairwise distinct, in the full setup the pool ids are too, every
    number of decimals lies in [0, 18], and every amount the scripts
    convert for a table entry is defined and fits [u128]. *)
Lemma asset_tables_well_formed :
  NoDup (map AssetConfig.id full_setup_assets)
  /\ NoDup (map AssetConfig.poolId full_setup_assets)
  /\ NoDup (map AssetInfo.assetId lending_pool_assets)
  /\ NoDup (map AssetInfo.poolId lending_pool_assets)
  /\ NoDup (map AssetLit.id create_assets_assets)
  /\ NoDup (map AssetLit.id mint_transfer_assets)
  /\ NoDup (map AssetLit.id set_metadata_assets)
  /\ Forall (fun a => amounts_ok (AssetConfig.decimals a) = true) full_setup_assets
  /\ Forall (fun a => amounts_ok (AssetInfo.decimals a) = true) lending_pool_assets
  /\ Forall (fun a => amounts_ok (AssetLit.decimals a) = true)
       (create_assets_assets ++ mint_transfer_assets ++ set_metadata_assets).
Proof.
  repeat split; try (apply forallb_Forall; by vm_compute);
    apply (proj1 (bool_decide_eq_true _)); by vm_compute.
Qed.

(** Checked by evaluation: the five scripts describe the same assets:
    every entry of the tables of [create-assets.ts], [mint-transfer.ts]
    and [set-asset-metadata.ts] has the name, symbol and decimals of the
    full setup's entry with its id, and every entry of
    [create-lending-pool.ts] has the full setup's name, decimals and pool
    id. *)
Lemma asset_tables_agree :
  Forall (fun a => lit_agrees a = true)
    (create_assets_assets ++ mint_transfer_assets ++ set_metadata_assets)
  /\ Forall (fun a => info_agrees a = true) lending_pool_assets.
Proof. split; apply forallb_Forall; by vm_compute. Qed.
