(* ===== verification/Submit.v ===== *)
(** * Submit: the submit-and-confirm pattern

    Every script wraps each transaction in
    [new Promise((resolve, reject) => tx.signAndSend(signer, opts, cb))],
    and the callback [cb] is called once per status notification of the
    node.  This file models
    - the notification ([SubmittableResult]: an [ExtrinsicStatus] and an
      optional [DispatchError]) and the decoding of module errors through
      the metadata registry ([Registry], an interface);
    - the two forms of the callback found in the sources:
      [on_status_inblock] (resolve on the first [InBlock]; all scripts but
      one, e.g. [src/full-setup-sudo.ts] lines 54-67) and
      [on_status_finalized] (log on [InBlock], resolve on [Finalized];
      [src/create-lending-pool.ts] lines 42-52);
    - the delivery of a whole stream of notifications to a callback
      ([deliver]) and the point where the awaiting script resumes
      ([await_settle]);
    - the lifecycle of a transaction in the node's pool, as the protocol
      the node follows ([lc_step], [lifecycle]): it is the environment's
      contract, not code of the repository. *)

From S2P Require Import Prelude.

Definition BlockHash := string.

(** ** Data *)

(** [ExtrinsicStatus] of [@polkadot/types], one constructor per variant. *)
Inductive ExtrinsicStatus :=
| Future
| Ready
| Broadcast
| InBlock (h : BlockHash)
| Retracted (h : BlockHash)
| FinalityTimeout (h : BlockHash)
| Finalized (h : BlockHash)
| Usurped (by_tx : string)
| Dropped
| Invalid.

(** [sp_runtime::ModuleError]: the pallet index and the error index. *)
Record ModuleError := mkModuleError { me_index : Z; me_error : Z }.

(** [DispatchError]: [isModule] with [asModule], or any other variant,
    which the scripts only print through [toString()]; [DEOther] keeps
    that string. *)
Inductive DispatchError :=
| DEModule (m : ModuleError)
| DEOther (raw : string).

#[export] Instance ModuleError_eq_dec : EqDecision ModuleError.
Proof. solve_decision. Defined.
#[export] Instance DispatchError_eq_dec : EqDecision DispatchError.
Proof. solve_decision. Defined.
#[export] Instance ExtrinsicStatus_eq_dec : EqDecision ExtrinsicStatus.
Proof. solve_decision. Defined.

(** The argument of the [signAndSend] callback. *)
Record SubmittableResult := mkResult {
  status : ExtrinsicStatus;
  dispatchError : option DispatchError
}.

(** [RegistryError] returned by [api.registry.findMetaError]. *)
Record RegistryError := mkRegistryError { section : string; name : string }.

(** The metadata registry of the connected chain, as the scripts use it. *)
Class Registry := { findMetaError : ModuleError -> RegistryError }.

(** One line of console output. *)
Inductive LogLine :=
| ConsoleLog (s : string)
| ConsoleError (s : string).

(** What a call site prints: the text before the decoded error (for
    example ["Transfer failed: "]) and the success line, a function of
    the block hash. *)
Record Site := mkSite {
  fail_prefix : string;
  ok_text : BlockHash -> string
}.

Definition Promise := Settled DispatchError.

(** A callback maps a notification and the promise state to the new
    promise state and the lines it prints. *)
Definition Callback := SubmittableResult -> Promise -> Promise * list LogLine.

Section Callbacks.
Context `{Registry}.

(** [if (dispatchError.isModule) { const decoded =
    api.registry.findMetaError(dispatchError.asModule); ...
    `${decoded.section}.${decoded.name}` } else { dispatchError.toString() }] *)
Definition describe (de : DispatchError) : string :=
  match de with
  | DEModule m =>
      let decoded := findMetaError m in
      section decoded +++ "." +++ name decoded
  | DEOther raw => raw
  end.

Definition error_line (site : Site) (de : DispatchError) : LogLine :=
  ConsoleError (fail_prefix site +++ describe de).

(** [src/full-setup-sudo.ts] lines 54-67 (and the same body at every
    call site of the in-block scripts):
    [if (dispatchError) { log; reject(dispatchError) }
     else if (status.isInBlock) { log; resolve() }]. *)
Definition on_status_inblock (site : Site) : Callback :=
  fun r p =>
    match dispatchError r with
    | Some de => (reject de p, [error_line site de])
    | None =>
        match status r with
        | InBlock h => (resolve p, [ConsoleLog (ok_text site h)])
        | _ => (p, [])
        end
    end.

(** [src/create-lending-pool.ts] lines 42-52: three independent [if]s,
    in this order: [if (status.isInBlock) log;
    if (dispatchError) { log; reject(dispatchError) };
    if (status.isFinalized) resolve()]. *)
Definition on_status_finalized (site : Site) : Callback :=
  fun r p =>
    let l1 := match status r with
              | InBlock h => [ConsoleLog (ok_text site h)]
              | _ => []
              end in
    let '(p1, l2) := match dispatchError r with
                     | Some de => (reject de p, [error_line site de])
                     | None => (p, [])
                     end in
    let p2 := match status r with
              | Finalized _ => resolve p1
              | _ => p1
              end in
    (p2, l1 ++ l2).
End Callbacks.

(** ** Delivering notifications *)

(** Every notification of the stream reaches the callback: the
    subscription is never cancelled, also after the promise settled. *)
Fixpoint deliver (cb : Callback) (rs : list SubmittableResult) (p : Promise)
  : Promise * list LogLine :=
  match rs with
  | [] => (p, [])
  | r :: rs' =>
      let '(p1, l1) := cb r p in
      let '(p2, l2) := deliver cb rs' p1 in
      (p2, l1 ++ l2)
  end.

(** [await new Promise(...)]: the script resumes right after the
    notification that settles the promise, with the lines printed so far
    and the notifications still to come; [None] when no notification of
    the stream settles it, and the script waits forever. *)
Fixpoint await_settle (cb : Callback) (rs : list SubmittableResult) (p : Promise)
  : option (Promise * list LogLine * list SubmittableResult) :=
  match rs with
  | [] => None
  | r :: rs' =>
      let '(p1, l1) := cb r p in
      if is_settled p1 then Some (p1, l1, rs')
      else match await_settle cb rs' p1 with
           | Some (q, l, rest) => Some (q, l1 ++ l, rest)
           | None => None
           end
  end.

(** ** The transaction lifecycle (the node's protocol) *)

(** Where a watched transaction is: just submitted, waiting for an
    earlier nonce, in the ready pool, included in block [h] with dispatch
    result [d], retracted by a re-organisation, or done. *)
Inductive Phase :=
| PStart
| PFuture
| PPool
| PBlock (h : BlockHash) (d : option DispatchError)
| PRetracted
| PDone.

(** One notification of Substrate's transaction pool watcher.  Events,
    hence a dispatch error, are attached only to [InBlock] and
    [Finalized]; the [Finalized] notification repeats the result of the
    block it finalizes. *)
Definition lc_step (ph : Phase) (r : SubmittableResult) : option Phase :=
  match ph, status r, dispatchError r with
  | PStart, Future, None => Some PFuture
  | PStart, Ready, None | PFuture, Ready, None | PRetracted, Ready, None => Some PPool
  | PPool, Broadcast, None => Some PPool
  | PPool, InBlock h, d | PRetracted, InBlock h, d => Some (PBlock h d)
  | PBlock h _, Retracted h', None =>
      if decide (h = h') then Some PRetracted else None
  | PBlock h d, Finalized h', d' =>
      if decide (h = h' /\ d = d') then Some PDone else None
  | PBlock h _, FinalityTimeout h', None =>
      if decide (h = h') then Some PDone else None
  | PStart, (Usurped _ | Dropped | Invalid), None
  | PFuture, (Usurped _ | Dropped | Invalid), None
  | PPool, (Usurped _ | Dropped | Invalid), None
  | PRetracted, (Usurped _ | Dropped | Invalid), None => Some PDone
  | _, _, _ => None
  end.

Fixpoint lifecycle (ph : Phase) (rs : list SubmittableResult) : option Phase :=
  match rs with
  | [] => Some ph
  | r :: rs' => match lc_step ph r with
                | Some ph' => lifecycle ph' rs'
                | None => None
                end
  end.

(** A complete stream: the watcher reached a terminal status. *)
Definition complete (rs : list SubmittableResult) : bool :=
  match lifecycle PStart rs with Some PDone => true | _ => false end.

(** The first inclusion of the transaction in a block, with its dispatch
    result. *)
Fixpoint first_inclusion (rs : list SubmittableResult)
  : option (BlockHash * option DispatchError) :=
  match rs with
  | [] => None
  | r :: rs' => match status r with
                | InBlock h => Some (h, dispatchError r)
                | _ => first_inclusion rs'
                end
  end.

(** The first notification that carries a dispatch error. *)
Fixpoint first_error (rs : list SubmittableResult) : option DispatchError :=
  match rs with
  | [] => None
  | r :: rs' => match dispatchError r with
                | Some e => Some e
                | None => first_error rs'
                end
  end.

(** The finalized dispatch result, when the stream finalizes. *)
Fixpoint finalized_result (rs : list SubmittableResult)
  : option (option DispatchError) :=
  match rs with
  | [] => None
  | r :: rs' => match status r with
                | Finalized _ => Some (dispatchError r)
                | _ => finalized_result rs'
                end
  end.

(** The verdict a dispatch result stands for. *)
Definition verdict (d : option DispatchError) : Promise :=
  match d with None => Resolved | Some e => Rejected e end.

(** * Properties *)

(** ** Settle-once *)

(** What the awaiting script sees agrees with the whole delivery: when
    the promise settles, it is settled for good and the delivery of the
    whole stream ends in the same state, the later notifications only
    adding lines; when it does not, it stays pending. *)
Definition settles_as_delivered (cb : Callback) (rs : list SubmittableResult) : Prop :=
  match await_settle cb rs Pending with
  | Some (q, l, rest) =>
      is_settled q = true /\ deliver cb rs Pending = (q, l ++ snd (deliver cb rest q))
  | None => fst (deliver cb rs Pending) = Pending
  end.

(** A callback never changes a settled promise. *)
Definition settle_stable (cb : Callback) : Prop :=
  forall r p, is_settled p = true -> fst (cb r p) = p.

Section Delivery.
Variable cb : Callback.
Hypothesis Hstable : settle_stable cb.

Lemma deliver_settled (rs : list SubmittableResult) (p : Promise) :
  is_settled p = true -> fst (deliver cb rs p) = p.
Proof.
  revert p. induction rs as [|r rs IH]; intros p Hp; [done|]. simpl.
  pose proof (Hstable r p Hp) as Hr.
  destruct (cb r p) as [p1 l1] eqn:E. simpl in Hr; subst p1.
  specialize (IH p Hp). destruct (deliver cb rs p). simpl in *. done.
Qed.

(** The promise the script resumes with is the promise's final state,
    and every later notification only prints. *)
Lemma await_settle_deliver (rs : list SubmittableResult) :
  settles_as_delivered cb rs.
Proof.
  unfold settles_as_delivered. induction rs as [|r rs IH]; simpl; [done|].
  destruct (cb r Pending) as [p1 l1] eqn:E.
  destruct (is_settled p1) eqn:Hs.
  - split; [done|].
    pose proof (deliver_settled rs p1 Hs) as Hd.
    destruct (deliver cb rs p1) as [p2 l2]. simpl in *. by subst.
  - destruct p1; try discriminate.
    destruct (await_settle cb rs Pending) as [[[q l] rest]|];
      destruct (deliver cb rs Pending) as [p2 l2]; simpl in *.
    + destruct IH as [Hq IH]. injection IH as -> ->. split; [done|].
      by rewrite app_assoc.
    + done.
Qed.
End Delivery.

(** The modelling choice of [await_settle], justified: since both
    callbacks act on the promise only through [resolve] and [reject],
    which ignore a settled promise, for every stream the
    outcome the awaiting script resumes with is the promise's final state
    after the whole stream, every notification after the settling one
    only prints, and a stream that never settles the promise leaves it
    pending. *)
Lemma submit_settles_once `{Registry} (site : Site) (rs : list SubmittableResult) :
  settles_as_delivered (on_status_inblock site) rs
  /\ settles_as_delivered (on_status_finalized site) rs.
Proof.
  split; apply await_settle_deliver; intros r p Hp;
    [unfold on_status_inblock | unfold on_status_finalized];
    destruct (dispatchError r), (status r); simpl; kylix_simpl; done.
Qed.

(** ** Streams that follow the lifecycle *)

(** A notification that neither callback reacts to: no dispatch error,
    neither [InBlock] nor [Finalized]. *)
Definition inert (r : SubmittableResult) : bool :=
  match dispatchError r, status r with
  | None, InBlock _ | None, Finalized _ | Some _, _ => false
  | None, _ => true
  end.

Lemma inert_inblock `{Registry} (site : Site) (r : SubmittableResult) :
  inert r = true -> on_status_inblock site r Pending = (Pending, []).
Proof. destruct r as [[] []]; simpl; done. Qed.

Lemma inert_finalized `{Registry} (site : Site) (r : SubmittableResult) :
  inert r = true -> on_status_finalized site r Pending = (Pending, []).
Proof. destruct r as [[] []]; simpl; done. Qed.

Lemma await_settle_skip (cb : Callback) (pre rs : list SubmittableResult) :
  Forall (fun r => cb r Pending = (Pending, [])) pre ->
  await_settle cb (pre ++ rs) Pending = await_settle cb rs Pending.
Proof.
  induction 1 as [|r pre Hr _ IH]; [done|]. simpl. rewrite Hr, IH. simpl.
  by destruct (await_settle cb rs Pending) as [[[? ?] ?]|].
Qed.

Lemma await_settle_skip_inert `{Registry} (site : Site) (pre rs : list SubmittableResult) :
  Forall (fun r => inert r = true) pre ->
  await_settle (on_status_inblock site) (pre ++ rs) Pending
    = await_settle (on_status_inblock site) rs Pending
  /\ await_settle (on_status_finalized site) (pre ++ rs) Pending
    = await_settle (on_status_finalized site) rs Pending.
Proof.
  intros Hpre. split; apply await_settle_skip; eapply Forall_impl; eauto;
    intros r; [apply inert_inblock | apply inert_finalized].
Qed.

(** The phases before any inclusion. *)
Definition pre_inclusion (ph : Phase) : bool :=
  match ph with PBlock _ _ | PRetracted => false | _ => true end.

Lemma lifecycle_done (rs : list SubmittableResult) (ph : Phase) :
  lifecycle PDone rs = Some ph -> rs = [].
Proof. destruct rs as [|r rs]; simpl; [done|]. by destruct r as [[] []]. Qed.

Lemma lc_step_pre_inclusion (ph ph1 : Phase) (r : SubmittableResult) :
  pre_inclusion ph = true -> lc_step ph r = Some ph1 ->
  (exists h, status r = InBlock h /\ ph1 = PBlock h (dispatchError r))
  \/ (inert r = true /\ pre_inclusion ph1 = true).
Proof.
  intros Hph Hstep.
  destruct ph; destruct r as [[] []]; simpl in *; try discriminate;
    injection Hstep as <-; eauto.
Qed.

(** Before its first inclusion a transaction's notifications are inert. *)
Lemma lifecycle_first_inclusion (ph ph' : Phase) (rs : list SubmittableResult) :
  pre_inclusion ph = true -> lifecycle ph rs = Some ph' ->
  match first_inclusion rs with
  | Some (h, d) =>
      exists pre post, rs = pre ++ mkResult (InBlock h) d :: post
                       /\ Forall (fun r => inert r = true) pre
                       /\ lifecycle (PBlock h d) post = Some ph'
  | None => Forall (fun r => inert r = true) rs
  end.
Proof.
  revert ph. induction rs as [|r rs IH]; intros ph Hph Hlc; simpl; [done|].
  simpl in Hlc. destruct (lc_step ph r) as [ph1|] eqn:Hstep; [|done].
  destruct (lc_step_pre_inclusion ph ph1 r Hph Hstep) as [(h & Hst & ->) | [Hin Hph1]].
  - rewrite Hst. exists [], rs. destruct r; simpl in *; subst. by repeat split.
  - assert (Hnot : match status r with InBlock _ => False | _ => True end)
      by (destruct r as [[] []]; done).
    specialize (IH ph1 Hph1 Hlc).
    destruct (status r); try done;
      (destruct (first_inclusion rs) as [[h' d']|];
       [destruct IH as (pre & post & -> & Hpre & Hpost);
        exists (r :: pre), post; by repeat constructor
       | by constructor]).
Qed.

(** The promise state the awaiting script resumes with, if any. *)
Definition awaited (cb : Callback) (rs : list SubmittableResult) : option Promise :=
  option_map (fun x => fst (fst x)) (await_settle cb rs Pending).

(** The outcome the specification asks for (section 4.1): in-block is
    provisional and the finalized dispatch result is the resolution. *)
Definition spec_outcome (rs : list SubmittableResult) : option Promise :=
  option_map verdict (finalized_result rs).

(** No re-organisation retracted the transaction from a block. *)
Definition no_reorg (rs : list SubmittableResult) : bool :=
  forallb (fun r => match status r with Retracted _ => false | _ => true end) rs.

Lemma first_error_skip (pre rs : list SubmittableResult) :
  Forall (fun r => inert r = true) pre ->
  first_error (pre ++ rs) = first_error rs
  /\ finalized_result (pre ++ rs) = finalized_result rs.
Proof.
  induction 1 as [|[st [e|]] pre Hr _ [IH1 IH2]]; [done|done|].
  simpl. rewrite IH1, IH2. by destruct st.
Qed.

Lemma lc_step_finalized (ph ph1 : Phase) (r : SubmittableResult) (h : BlockHash) :
  status r = Finalized h -> lc_step ph r = Some ph1 -> ph1 = PDone.
Proof.
  intros Hst Hstep. destruct r as [st d]; simpl in *; subst.
  destruct ph; simpl in *; try discriminate.
  case_decide; congruence.
Qed.

(** The finalized callback settles at the first dispatch error, or at
    [Finalized]. *)
Lemma awaited_finalized_scan `{Registry} (site : Site) (ph : Phase)
    (rs : list SubmittableResult) :
  lifecycle ph rs = Some PDone ->
  awaited (on_status_finalized site) rs
  = match first_error rs with
    | Some e => Some (Rejected e)
    | None => option_map (fun _ => Resolved) (finalized_result rs)
    end.
Proof.
  unfold awaited. revert ph. induction rs as [|r rs IH]; intros ph Hlc; [done|].
  simpl in Hlc. destruct (lc_step ph r) as [ph1|] eqn:Hstep; [|done].
  specialize (IH ph1 Hlc).
  destruct r as [st [e|]]; simpl; [by destruct st|].
  destruct st eqn:Hst; simpl;
    try (destruct (await_settle _ rs Pending) as [[[q l] rest]|]; done).
  pose proof (lc_step_finalized ph ph1 (mkResult (Finalized h) None) h eq_refl Hstep) as ->.
  by rewrite (lifecycle_done rs PDone Hlc).
Qed.

(** A block followed by no retraction ends in one notification. *)
Lemma lifecycle_block_no_reorg (h : BlockHash) (d : option DispatchError)
    (post : list SubmittableResult) :
  lifecycle (PBlock h d) post = Some PDone -> no_reorg post = true ->
  post = [mkResult (Finalized h) d] \/ post = [mkResult (FinalityTimeout h) None].
Proof.
  destruct post as [|[st d'] post]; simpl; [done|].
  intros Hlc Hno. apply andb_prop in Hno as [Hno _].
  destruct st; try discriminate; simpl in Hlc; [destruct d'|..]; try discriminate;
    case_decide; try discriminate; destruct_and?; subst;
    rewrite (lifecycle_done post PDone Hlc); auto.
Qed.

(** The in-block callback settles at the first inclusion with its verdict and one line; shared by the submission lemmas. *)
Lemma inblock_settle_first_inclusion `{Registry} (site : Site)
    (rs : list SubmittableResult) (ph : Phase) (h : BlockHash)
    (d : option DispatchError) :
  lifecycle PStart rs = Some ph -> first_inclusion rs = Some (h, d) ->
  exists rest,
    await_settle (on_status_inblock site) rs Pending
    = Some (verdict d,
            [match d with
             | None => ConsoleLog (ok_text site h)
             | Some (DEModule m) =>
                 ConsoleError (fail_prefix site +++ section (findMetaError m)
                               +++ "." +++ name (findMetaError m))
             | Some (DEOther raw) => ConsoleError (fail_prefix site +++ raw)
             end],
            rest).
Proof.
  intros Hlc Hfirst.
  pose proof (lifecycle_first_inclusion PStart ph rs eq_refl Hlc) as Hsplit.
  rewrite Hfirst in Hsplit. destruct Hsplit as (pre & post & -> & Hpre & _).
  rewrite (proj1 (await_settle_skip_inert site pre _ Hpre)).
  exists post. by destruct d as [[m|raw]|].
Qed.

(** C1: on every stream that follows
    the lifecycle, the in-block callback settles exactly at the first
    inclusion of the transaction: it resolves when that block's dispatch
    succeeded and rejects with the dispatch error otherwise, and the only
    line it has printed is the success line, or [prefix section.name] for
    a module error decoded by the registry, or [prefix raw] for any other
    error, unmodified. *)
Theorem inblock_verdict_first_inclusion `{Registry} (site : Site)
    (rs : list SubmittableResult) (ph : Phase) (h : BlockHash)
    (d : option DispatchError) :
  lifecycle PStart rs = Some ph -> first_inclusion rs = Some (h, d) ->
  exists rest,
    await_settle (on_status_inblock site) rs Pending
    = Some (verdict d,
            [match d with
             | None => ConsoleLog (ok_text site h)
             | Some (DEModule m) =>
                 ConsoleError (fail_prefix site +++ section (findMetaError m)
                               +++ "." +++ name (findMetaError m))
             | Some (DEOther raw) => ConsoleError (fail_prefix site +++ raw)
             end],
            rest).
Proof. exact (inblock_settle_first_inclusion site rs ph h d). Qed.

(** A registry and a call site to run the theorems on. *)
Definition demo_registry : Registry :=
  {| findMetaError := fun m => mkRegistryError "assets" "InUse" |}.
Definition demo_site : Site :=
  mkSite "Create failed: " (fun h => "Asset created in block " +++ h).

Lemma inblock_verdict_first_inclusion_witness :
  exists rest,
    await_settle (@on_status_inblock demo_registry demo_site)
      [mkResult Ready None; mkResult Broadcast None;
       mkResult (InBlock "0x01") (Some (DEModule (mkModuleError 50 3)));
       mkResult (Finalized "0x01") (Some (DEModule (mkModuleError 50 3)))] Pending
    = Some (Rejected (DEModule (mkModuleError 50 3)),
            [ConsoleError ("Create failed: " +++ "assets" +++ "." +++ "InUse")], rest).
Proof.
  apply (@inblock_verdict_first_inclusion demo_registry demo_site
           [mkResult Ready None; mkResult Broadcast None;
            mkResult (InBlock "0x01") (Some (DEModule (mkModuleError 50 3)));
            mkResult (Finalized "0x01") (Some (DEModule (mkModuleError 50 3)))]
           PDone "0x01" (Some (DEModule (mkModuleError 50 3))));
    vm_compute; reflexivity.
Defined.

(** C2: on every stream that follows
    the lifecycle and never includes the transaction in a block (it is
    dropped, invalid, usurped, or still waiting), neither form of the
    callback ever settles the promise: the script awaits forever.  The
    specification's "never zero resolutions" does not hold. *)
Theorem submit_hangs_without_inclusion `{Registry} (site : Site)
    (rs : list SubmittableResult) (ph : Phase) :
  lifecycle PStart rs = Some ph -> first_inclusion rs = None ->
  await_settle (on_status_inblock site) rs Pending = None
  /\ await_settle (on_status_finalized site) rs Pending = None.
Proof.
  intros Hlc Hfirst.
  pose proof (lifecycle_first_inclusion PStart ph rs eq_refl Hlc) as Hsplit.
  rewrite Hfirst in Hsplit. rewrite <- (app_nil_r rs).
  destruct (await_settle_skip_inert site rs [] Hsplit) as [-> ->]. done.
Qed.

Lemma submit_hangs_without_inclusion_witness :
  complete [mkResult Ready None; mkResult Broadcast None; mkResult Dropped None] = true
  /\ await_settle (@on_status_inblock demo_registry demo_site)
       [mkResult Ready None; mkResult Broadcast None; mkResult Dropped None] Pending = None
  /\ await_settle (@on_status_finalized demo_registry demo_site)
       [mkResult Ready None; mkResult Broadcast None; mkResult Dropped None] Pending = None.
Proof.
  split; [reflexivity|].
  apply (@submit_hangs_without_inclusion demo_registry demo_site _ PDone); reflexivity.
Defined.

(** The finalized callback settles on the first dispatch error, else on finalization. *)
Lemma finalized_settle_verdict `{Registry} (site : Site) (rs : list SubmittableResult) :
  complete rs = true ->
  awaited (on_status_finalized site) rs
  = match first_error rs with
    | Some e => Some (Rejected e)
    | None => match finalized_result rs with
              | Some _ => Some Resolved
              | None => None
              end
    end.
Proof.
  unfold complete. destruct (lifecycle PStart rs) as [[]|] eqn:Hlc; try done.
  intros _. rewrite (awaited_finalized_scan site PStart rs Hlc).
  by destruct (first_error rs), (finalized_result rs).
Qed.

(** C3: on every complete stream, the
    finalized callback of [create-lending-pool.ts] rejects with the first
    dispatch error the stream carries, even one of a block that is later
    retracted; without any dispatch error it resolves when the stream
    finalizes and never settles otherwise. *)
Theorem finalized_policy_verdict `{Registry} (site : Site) (rs : list SubmittableResult) :
  complete rs = true ->
  awaited (on_status_finalized site) rs
  = match first_error rs with
    | Some e => Some (Rejected e)
    | None => match finalized_result rs with
              | Some _ => Some Resolved
              | None => None
              end
    end.
Proof. exact (finalized_settle_verdict site rs). Qed.

Lemma finalized_policy_verdict_witness :
  complete [mkResult Ready None; mkResult (InBlock "0x01") None;
            mkResult (Finalized "0x01") None] = true
  /\ awaited (@on_status_finalized demo_registry demo_site)
       [mkResult Ready None; mkResult (InBlock "0x01") None;
        mkResult (Finalized "0x01") None] = Some Resolved.
Proof.
  split; [reflexivity|].
  rewrite (@finalized_policy_verdict demo_registry demo_site); reflexivity.
Defined.

(** C4: on every complete stream
    with no re-organisation that finalizes, both forms of the callback
    settle with the outcome the specification asks for: the verdict of
    the finalized dispatch result. *)
Theorem policies_refine_spec_without_reorg `{Registry} (site : Site)
    (rs : list SubmittableResult) (d : option DispatchError) :
  complete rs = true -> no_reorg rs = true -> finalized_result rs = Some d ->
  awaited (on_status_inblock site) rs = spec_outcome rs
  /\ awaited (on_status_finalized site) rs = spec_outcome rs.
Proof.
  intros Hc Hno Hfin. pose proof Hc as Hc'. unfold complete in Hc.
  destruct (lifecycle PStart rs) as [[]|] eqn:Hlc; try done.
  pose proof (lifecycle_first_inclusion PStart PDone rs eq_refl Hlc) as Hsplit.
  destruct (first_inclusion rs) as [[h d1]|] eqn:Hfirst.
  - destruct Hsplit as (pre & post & Hrs & Hpre & Hpost).
    destruct (first_error_skip pre (mkResult (InBlock h) d1 :: post) Hpre) as [Hfe Hfr].
    rewrite <- Hrs in Hfe, Hfr.
    assert (Hnp : no_reorg post = true).
    { rewrite Hrs in Hno. unfold no_reorg in *.
      rewrite forallb_app in Hno. simpl in Hno.
      by apply andb_prop in Hno as [_ Hno]. }
    destruct (lifecycle_block_no_reorg h d1 post Hpost Hnp) as [-> | ->];
      rewrite Hfr in Hfin; simpl in Hfin; [|done].
    injection Hfin as <-. unfold spec_outcome. rewrite Hfr. simpl.
    split.
    + unfold awaited.
      destruct (inblock_settle_first_inclusion site rs PDone h d1 Hlc Hfirst) as [rest ->].
      done.
    + rewrite (finalized_settle_verdict site rs Hc'), Hfe, Hfr. by destruct d1.
  - destruct (first_error_skip rs [] Hsplit) as [_ Hfr].
    rewrite app_nil_r in Hfr. simpl in Hfr. congruence.
Qed.

Lemma policies_refine_spec_without_reorg_witness :
  complete [mkResult Ready None; mkResult (InBlock "0x01") None;
            mkResult (Finalized "0x01") None] = true
  /\ no_reorg [mkResult Ready None; mkResult (InBlock "0x01") None;
               mkResult (Finalized "0x01") None] = true
  /\ awaited (@on_status_inblock demo_registry demo_site)
       [mkResult Ready None; mkResult (InBlock "0x01") None;
        mkResult (Finalized "0x01") None] = Some Resolved.
Proof.
  split; [reflexivity|]. split; [reflexivity|].
  refine (proj1 (@policies_refine_spec_without_reorg demo_registry demo_site _ None _ _ _));
    reflexivity.
Defined.

(** C5: with re-organisations, the code's
    verdicts differ from the finalized verdict the specification asks
    for: the in-block callback resolves a transaction whose finalized
    dispatch failed; both callbacks reject a transaction whose finalized
    dispatch succeeded after its first block failed and was retracted;
    and the in-block callback resolves a transaction that never
    finalizes. *)
Theorem reorg_diverges_from_spec `{Registry} (site : Site) (e : DispatchError) :
  (exists rs, complete rs = true
              /\ awaited (on_status_inblock site) rs = Some Resolved
              /\ spec_outcome rs = Some (Rejected e))
  /\ (exists rs, complete rs = true
                 /\ awaited (on_status_inblock site) rs = Some (Rejected e)
                 /\ awaited (on_status_finalized site) rs = Some (Rejected e)
                 /\ spec_outcome rs = Some Resolved)
  /\ (exists rs, complete rs = true
                 /\ awaited (on_status_inblock site) rs = Some Resolved
                 /\ awaited (on_status_finalized site) rs = None
                 /\ spec_outcome rs = None).
Proof.
  split; [|split].
  - exists [mkResult Ready None; mkResult (InBlock "0x01") None;
            mkResult (Retracted "0x01") None; mkResult (InBlock "0x02") (Some e);
            mkResult (Finalized "0x02") (Some e)].
    unfold complete; simpl; rewrite ?decide_True by done; done.
  - exists [mkResult Ready None; mkResult (InBlock "0x01") (Some e);
            mkResult (Retracted "0x01") None; mkResult (InBlock "0x02") None;
            mkResult (Finalized "0x02") None].
    unfold complete; simpl; rewrite ?decide_True by done; done.
  - exists [mkResult Ready None; mkResult (InBlock "0x01") None;
            mkResult (FinalityTimeout "0x01") None].
    done.
Qed.
