(* ===== verification/Script.v ===== *)
(** * Script: the node interface and the script monad

    What every script shares: the calls it builds ([api.tx.*]), the node
    it talks to (the [Node] interface: queries, metadata registry, key
    derivation, and [signAndSend] returning the notification stream), and
    the script's execution as a state-and-exception monad [M] over a
    [World] (node state, console output, transactions sent, the manual
    [nonce] counter of [src/full-setup-sudo.ts], connection).  An awaited
    submission runs the callback of [Submit] over the stream; a promise
    that never settles blocks the script ([Blocked]). *)

From S2P Require Import Prelude Units Submit.

Definition Account := string.

(** ** Calls *)

(** The [{ WithId: asset.id }] argument of the lending pallet. *)
Inductive AssetRef := WithId (id : Z).

(** The calls the scripts build through [api.tx.<pallet>.<call>]. *)
Inductive Call :=
| BalancesTransferKeepAlive (dest : Account) (value : Z)
| AssetsCreate (id : Z) (admin : Account) (minBalance : Z)
| AssetsSetMetadata (id : Z) (name symbol : string) (decimals : Z)
| AssetsMint (id : Z) (beneficiary : Account) (amount : Z)
| AssetsTransfer (id : Z) (target : Account) (amount : Z)
| LendingCreatePool (poolId : Z) (asset : AssetRef) (amount : Z)
| LendingActivatePool (asset : AssetRef)
| SudoSudo (call : Call).

#[export] Instance AssetRef_eq_dec : EqDecision AssetRef.
Proof. solve_decision. Defined.
#[export] Instance Call_eq_dec : EqDecision Call.
Proof. solve_decision. Defined.

(** ** The node *)

(** What the scripts rely on from the connected node and the client
    library.  [submit] is [signAndSend]: it takes the signer, the explicit
    nonce when one is passed, and the call, and returns every status
    notification the subscription will ever deliver and the node state
    the script observes afterwards. *)
Class Node := {
  NState : Type;
  node_registry : Registry;
  chain_name : NState -> string;
  address_of_uri : string -> Account;
  accountNextIndex : NState -> Account -> Z;
  query_asset : NState -> Z -> bool;
  query_account : NState -> Z -> Account -> option Z;
  query_metadata : NState -> Z -> option (string * string * Z);
  encodable : Call -> bool;
  submit : NState -> Account -> option Z -> Call -> list SubmittableResult * NState
}.
#[export] Existing Instance node_registry.

(** ** The script's world *)

(** Errors a script can throw: a rejected submission, a call whose
    arguments the runtime types refuse ([api.tx.*] throws), a [BN]
    constructor assertion. *)
Inductive JsError :=
| ErrDispatch (e : DispatchError)
| ErrEncode (c : Call)
| ErrBN.

(** Console output: a line, or [console.error(label, err)] with the error
    object (printed by the runtime's inspector, not modelled as text). *)
Inductive Out :=
| Line (l : LogLine)
| Warn (s : string)
| ErrorWith (label : string) (e : JsError).

(** The result of a script step: a value, an exception, or a wait that
    never ends. *)
Inductive Outcome (A : Type) :=
| Done (a : A)
| Threw (e : JsError)
| Blocked.
Arguments Done {A} a.
Arguments Threw {A} e.
Arguments Blocked {A}.

Section WithNode.
Context `{Node}.

Record World := mkWorld {
  w_node : NState;
  w_out : list Out;
  w_sent : list (option Z * Call);
  w_nonce : Z;
  w_connected : bool
}.

Definition set_node (s : NState) (w : World) : World :=
  mkWorld s (w_out w) (w_sent w) (w_nonce w) (w_connected w).
Definition add_out (o : list Out) (w : World) : World :=
  mkWorld (w_node w) (w_out w ++ o) (w_sent w) (w_nonce w) (w_connected w).
Definition add_sent (x : option Z * Call) (w : World) : World :=
  mkWorld (w_node w) (w_out w) (w_sent w ++ [x]) (w_nonce w) (w_connected w).
Definition set_nonce (n : Z) (w : World) : World :=
  mkWorld (w_node w) (w_out w) (w_sent w) n (w_connected w).
Definition set_connected (b : bool) (w : World) : World :=
  mkWorld (w_node w) (w_out w) (w_sent w) (w_nonce w) b.

(** ** The script monad *)

Definition M (A : Type) := World -> Outcome A * World.

Definition ret {A} (a : A) : M A := fun w => (Done a, w).

Definition bind {A B} (m : M A) (k : A -> M B) : M B :=
  fun w => match m w with
           | (Done a, w') => k a w'
           | (Threw e, w') => (Threw e, w')
           | (Blocked, w') => (Blocked, w')
           end.

Definition throw {A} (e : JsError) : M A := fun w => (Threw e, w).

End WithNode.

Arguments M {_} A.
Notation "x <- m ;; k" := (bind m (fun x => k))
  (at level 100, m at next level, right associativity) : kylix_scope.
Notation "m ;; k" := (bind m (fun _ => k))
  (at level 100, right associativity) : kylix_scope.

Section Primitives.
Context `{Node}.

(** [console.log(s)] and [console.error(s)]. *)
Definition log (s : string) : M unit := fun w => (Done tt, add_out [Line (ConsoleLog s)] w).
Definition log_error (label : string) (e : JsError) : M unit :=
  fun w => (Done tt, add_out [ErrorWith label e] w).
Definition warn (s : string) : M unit := fun w => (Done tt, add_out [Warn s] w).

(** [await api.rpc.system.chain()] and the storage queries. *)
Definition rpc_chain : M string := fun w => (Done (chain_name (w_node w)), w).
Definition q_asset (id : Z) : M bool := fun w => (Done (query_asset (w_node w) id), w).
Definition q_account (id : Z) (who : Account) : M (option Z) :=
  fun w => (Done (query_account (w_node w) id who), w).
Definition q_metadata (id : Z) : M (option (string * string * Z)) :=
  fun w => (Done (query_metadata (w_node w) id), w).

(** The printing of [(await api.query.assets.metadata(id)).toJSON()]. *)
Definition show_metadata (m : option (string * string * Z)) : string :=
  match m with
  | None => "null"
  | Some (nm, sym, dec) => nm +++ " " +++ sym +++ " " +++ pretty dec
  end.

(** [let nonce = await api.rpc.system.accountNextIndex(who)]. *)
Definition init_nonce (who : Account) : M unit :=
  fun w => (Done tt, set_nonce (accountNextIndex (w_node w) who) w).

(** [api.tx.<pallet>.<call>(...)]: building the call throws when the
    runtime types refuse an argument. *)
Definition build (c : Call) : M Call :=
  fun w => if encodable c then (Done c, w) else (Threw (ErrEncode c), w).

(** [toChainUnits(amount, decimals)], whose [BN] constructors may throw. *)
Definition units (amount decimals : Z) : M Z :=
  fun w => match toChainUnits amount decimals with
           | Some v => (Done v, w)
           | None => (Threw ErrBN, w)
           end.

(** A [BN] computed inline, whose constructors may throw. *)
Definition bn (o : option Z) : M Z :=
  fun w => match o with
           | Some v => (Done v, w)
           | None => (Threw ErrBN, w)
           end.

(** [await new Promise((resolve, reject) => tx.signAndSend(signer, opts, cb))]:
    the transaction is sent, and the script resumes when the promise
    settles; the lines printed after that are not part of the script's
    sequential output.  A promise that never settles blocks the script
    after every notification has been printed. *)
Definition send_and_await (cb : Callback) (signer : Account) (nonce : option Z)
    (c : Call) : M unit :=
  fun w =>
    let '(rs, s') := submit (w_node w) signer nonce c in
    let w1 := set_node s' (add_sent (nonce, c) w) in
    match await_settle cb rs Pending with
    | Some (Resolved, l, _) => (Done tt, add_out (map Line l) w1)
    | Some (Rejected e, l, _) => (Threw (ErrDispatch e), add_out (map Line l) w1)
    | Some (Pending, l, _) => (Blocked, add_out (map Line l) w1)
    | None => (Blocked, add_out (map Line (snd (deliver cb rs Pending))) w1)
    end.

(** [signAndSend(signer, { nonce: nonce++ }, cb)]: the local counter is
    read and incremented when the arguments are evaluated. *)
Definition send_with_nonce (cb : Callback) (signer : Account) (c : Call) : M unit :=
  fun w => let n := w_nonce w in
           send_and_await cb signer (Some n) c (set_nonce (n + 1) w).

(** [await api.disconnect()]. *)
Definition disconnect : M unit := fun w => (Done tt, set_connected false w).

(** [for (const a of l) { try { body } catch (err) { handler; break; } }] *)
Fixpoint for_each_try_break {A} (body : A -> M unit) (handler : A -> JsError -> M unit)
    (l : list A) : M unit :=
  match l with
  | [] => ret tt
  | a :: rest =>
      fun w => match body a w with
               | (Done _, w') => for_each_try_break body handler rest w'
               | (Threw e, w') => handler a e w'
               | (Blocked, w') => (Blocked, w')
               end
  end.

(** [for (const a of l) { body }] where [continue] is an early return of
    the body and an exception leaves the loop and the function. *)
Fixpoint for_each {A} (body : A -> M unit) (l : list A) : M unit :=
  match l with
  | [] => ret tt
  | a :: rest => body a ;; for_each body rest
  end.

(** [main().catch(console.error)]. *)
Definition catch_top (m : M unit) : M unit :=
  fun w => match m w with
           | (Threw e, w') => (Done tt, add_out [ErrorWith "" e] w')
           | r => r
           end.

End Primitives.

(** * Generic properties of the monad *)

Section Invariants.
Context `{Node}.

(** A predicate on worlds that a computation keeps, whatever it returns. *)
Definition preserves {A} (P : World -> Prop) (m : M A) : Prop :=
  forall w, P w -> P (snd (m w)).

Lemma preserves_ret {A} (P : World -> Prop) (a : A) : preserves P (ret a).
Proof. by intros w. Qed.

Lemma preserves_bind {A B} (P : World -> Prop) (m : M A) (k : A -> M B) :
  preserves P m -> (forall a, preserves P (k a)) -> preserves P (bind m k).
Proof.
  intros Hm Hk w Hw. unfold bind. specialize (Hm w Hw).
  destruct (m w) as [[a| |] w']; simpl in *; [by apply Hk | done | done].
Qed.

Lemma preserves_throw {A} (P : World -> Prop) (e : JsError) : preserves P (@throw _ A e).
Proof. by intros w. Qed.

Lemma preserves_if {A} (P : World -> Prop) (b : bool) (m1 m2 : M A) :
  preserves P m1 -> preserves P m2 -> preserves P (if b then m1 else m2).
Proof. by destruct b. Qed.

Lemma preserves_for_each_try_break {A} (P : World -> Prop) (body : A -> M unit)
    (handler : A -> JsError -> M unit) (l : list A) :
  (forall a, preserves P (body a)) -> (forall a e, preserves P (handler a e)) ->
  preserves P (for_each_try_break body handler l).
Proof.
  intros Hb Hh. induction l as [|a l IH]; intros w Hw; simpl; [done|].
  specialize (Hb a w Hw). destruct (body a w) as [[]w']; simpl in *; auto.
  by apply Hh.
Qed.

Lemma preserves_for_each {A} (P : World -> Prop) (body : A -> M unit) (l : list A) :
  (forall a, preserves P (body a)) -> preserves P (for_each body l).
Proof.
  intros Hb. induction l as [|a l IH]; simpl;
    [apply preserves_ret | by apply preserves_bind].
Qed.

(** A world property that only looks at the transactions sent and the
    nonce counter is kept by every primitive that sends nothing. *)
Definition sent_nonce_only (P : World -> Prop) : Prop :=
  forall w w', w_sent w = w_sent w' -> w_nonce w = w_nonce w' -> P w -> P w'.

(** A world property kept by printing and by closing the connection. *)
Definition quiet (P : World -> Prop) : Prop :=
  (forall o w, P w -> P (add_out o w)) /\ (forall b w, P w -> P (set_connected b w)).

Lemma sent_nonce_only_quiet (P : World -> Prop) : sent_nonce_only P -> quiet P.
Proof. intros HP. split; intros ? w; by apply (HP w). Qed.

Section Quiet.
Variable P : World -> Prop.
Hypothesis HP : quiet P.

Lemma preserves_log (s : string) : preserves P (log s).
Proof. intros w Hw. exact (proj1 HP _ _ Hw). Qed.
Lemma preserves_log_error (label : string) (e : JsError) : preserves P (log_error label e).
Proof. intros w Hw. exact (proj1 HP _ _ Hw). Qed.
Lemma preserves_warn (s : string) : preserves P (warn s).
Proof. intros w Hw. exact (proj1 HP _ _ Hw). Qed.
Lemma preserves_rpc_chain : preserves P rpc_chain.
Proof. by intros w. Qed.
Lemma preserves_q_asset (id : Z) : preserves P (q_asset id).
Proof. by intros w. Qed.
Lemma preserves_q_account (id : Z) (who : Account) : preserves P (q_account id who).
Proof. by intros w. Qed.
Lemma preserves_q_metadata (id : Z) : preserves P (q_metadata id).
Proof. by intros w. Qed.
Lemma preserves_build (c : Call) : preserves P (build c).
Proof. intros w. unfold build. by destruct (encodable c). Qed.
Lemma preserves_units (a d : Z) : preserves P (units a d).
Proof. intros w. unfold units. by destruct (toChainUnits a d). Qed.
Lemma preserves_bn (o : option Z) : preserves P (bn o).
Proof. intros w. unfold bn. by destruct o. Qed.
Lemma preserves_disconnect : preserves P disconnect.
Proof. intros w Hw. exact (proj2 HP _ _ Hw). Qed.
Lemma preserves_catch_top (m : M unit) : preserves P m -> preserves P (catch_top m).
Proof.
  intros Hm w Hw. unfold catch_top. specialize (Hm w Hw).
  destruct (m w) as [[] w']; simpl in *; auto. by apply (proj1 HP).
Qed.
End Quiet.

End Invariants.

#[export] Hint Resolve preserves_ret preserves_bind preserves_throw preserves_if
  preserves_for_each_try_break preserves_for_each preserves_log preserves_log_error preserves_warn
  preserves_rpc_chain preserves_q_asset preserves_q_account preserves_q_metadata
  preserves_build preserves_units preserves_bn preserves_disconnect preserves_catch_top : kylix.

(** * Transactions sent and the nonce counter *)

Section Sending.
Context `{Node}.

Lemma send_and_await_sent (cb : Callback) (signer : Account) (nonce : option Z)
    (c : Call) (w : World) :
  w_sent (snd (send_and_await cb signer nonce c w)) = w_sent w ++ [(nonce, c)]
  /\ w_nonce (snd (send_and_await cb signer nonce c w)) = w_nonce w
  /\ w_connected (snd (send_and_await cb signer nonce c w)) = w_connected w.
Proof.
  unfold send_and_await. destruct (submit _ _ _ _) as [rs s'].
  by destruct (await_settle cb rs Pending) as [[[[| |] l] rest]|].
Qed.

Lemma send_with_nonce_sent (cb : Callback) (signer : Account) (c : Call) (w : World) :
  w_sent (snd (send_with_nonce cb signer c w)) = w_sent w ++ [(Some (w_nonce w), c)]
  /\ w_connected (snd (send_with_nonce cb signer c w)) = w_connected w.
Proof.
  unfold send_with_nonce.
  destruct (send_and_await_sent cb signer (Some (w_nonce w)) c
              (set_nonce (w_nonce w + 1) w)) as (Hs & _ & Hc).
  by rewrite Hs, Hc.
Qed.

(** The node state after a send is the one the submission left, and
    [nonce++] advanced the counter, whatever the promise did. *)
Lemma send_with_nonce_world (cb : Callback) (signer : Account) (c : Call) (w : World) :
  w_node (snd (send_with_nonce cb signer c w))
  = snd (submit (w_node w) signer (Some (w_nonce w)) c)
  /\ w_nonce (snd (send_with_nonce cb signer c w)) = w_nonce w + 1.
Proof.
  unfold send_with_nonce, send_and_await. simpl.
  destruct (submit _ _ _ _) as [rs s'].
  by destruct (await_settle cb rs Pending) as [[[[| |] l] rest]|].
Qed.

(** The nonces of the transactions sent since the counter was read from
    the chain as [n0] are [n0], [n0 + 1], ..., and the counter holds the
    next one. *)
Definition nonce_inv (n0 : Z) (w : World) : Prop :=
  map fst (w_sent w) = map (fun k => Some (n0 + Z.of_nat k)) (seq 0 (length (w_sent w)))
  /\ w_nonce w = n0 + Z.of_nat (length (w_sent w)).

Lemma nonce_inv_sent_nonce_only (n0 : Z) : sent_nonce_only (nonce_inv n0).
Proof. intros w w' Hs Hn. unfold nonce_inv. by rewrite <- Hs, <- Hn. Qed.

Lemma preserves_send_with_nonce (n0 : Z) (cb : Callback) (signer : Account) (c : Call) :
  preserves (nonce_inv n0) (send_with_nonce cb signer c).
Proof.
  intros w [Hs Hn]. unfold send_with_nonce.
  destruct (send_and_await_sent cb signer (Some (w_nonce w)) c
              (set_nonce (w_nonce w + 1) w)) as (Hs' & Hn' & _).
  unfold nonce_inv. rewrite Hs', Hn'. simpl.
  rewrite map_app, length_app, seq_app, map_app, Hs. simpl.
  split; [by rewrite Hn | rewrite Hn, Nat2Z.inj_add; simpl; lia].
Qed.

(** Reading the counter from the chain starts the invariant. *)
Lemma init_nonce_inv (who : Account) (w : World) :
  w_sent w = [] ->
  nonce_inv (accountNextIndex (w_node w) who) (snd (init_nonce who w)).
Proof. intros Hs. unfold nonce_inv. simpl. rewrite Hs. simpl. split; [done | lia]. Qed.

End Sending.

#[export] Hint Resolve sent_nonce_only_quiet nonce_inv_sent_nonce_only preserves_send_with_nonce : kylix.

Lemma catch_top_sent `{Node} (m : M unit) (w : World) :
  w_sent (snd (catch_top m w)) = w_sent (snd (m w))
  /\ w_nonce (snd (catch_top m w)) = w_nonce (snd (m w)).
Proof. unfold catch_top. by destruct (m w) as [[] w']. Qed.

(** Proves [preserves P m] for a script [m] built from the primitives. *)
Ltac preserves_tac :=
  repeat (intros;
          first [ apply preserves_bind
                | apply preserves_if
                | apply preserves_for_each_try_break
                | apply preserves_for_each
                | solve [eauto with kylix] ]).

(** * Invariants of the runs that do not block

    A property the script keeps whenever it does not wait forever: a
    send whose transaction is dropped leaves the script blocked, and the
    property need not hold then. *)

Section Live.
Context `{Node}.

Definition preserves_live {A} (P : World -> Prop) (m : M A) : Prop :=
  forall w, P w -> fst (m w) <> Blocked -> P (snd (m w)).

Lemma preserves_live_of {A} (P : World -> Prop) (m : M A) :
  preserves P m -> preserves_live P m.
Proof. intros Hm w Hw _. by apply Hm. Qed.

Lemma preserves_live_and {A} (P Q : World -> Prop) (m : M A) :
  preserves_live P m -> preserves_live Q m -> preserves_live (fun w => P w /\ Q w) m.
Proof. intros HP HQ w [Hp Hq] Hb. split; auto. Qed.

Lemma preserves_live_bind {A B} (P : World -> Prop) (m : M A) (k : A -> M B) :
  preserves_live P m -> (forall a, preserves_live P (k a)) -> preserves_live P (bind m k).
Proof.
  intros Hm Hk w Hw Hnb. unfold bind in *. specialize (Hm w Hw).
  destruct (m w) as [[a| |] w']; simpl in *;
    [apply Hk; [apply Hm; discriminate | exact Hnb] | apply Hm; discriminate | done].
Qed.

Lemma preserves_live_if {A} (P : World -> Prop) (b : bool) (m1 m2 : M A) :
  preserves_live P m1 -> preserves_live P m2 -> preserves_live P (if b then m1 else m2).
Proof. by destruct b. Qed.

Lemma preserves_live_for_each_try_break {A} (P : World -> Prop) (body : A -> M unit)
    (handler : A -> JsError -> M unit) (l : list A) :
  (forall a, preserves_live P (body a)) -> (forall a e, preserves_live P (handler a e)) ->
  preserves_live P (for_each_try_break body handler l).
Proof.
  intros Hb Hh. induction l as [|a l IH]; intros w Hw; simpl; [done|].
  specialize (Hb a w Hw).
  destruct (body a w) as [[|e|] w']; simpl in *; intros Hnb;
    [apply IH; [apply Hb; discriminate | exact Hnb]
    | apply Hh; [apply Hb; discriminate | exact Hnb] | done].
Qed.

Lemma preserves_live_for_each {A} (P : World -> Prop) (body : A -> M unit) (l : list A) :
  (forall a, preserves_live P (body a)) -> preserves_live P (for_each body l).
Proof.
  intros Hb. induction l as [|a l IH]; simpl;
    [by apply preserves_live_of, preserves_ret | by apply preserves_live_bind].
Qed.

Lemma preserves_live_catch_top (P : World -> Prop) (m : M unit) :
  quiet P -> preserves_live P m -> preserves_live P (catch_top m).
Proof.
  intros HP Hm w Hw. unfold catch_top. specialize (Hm w Hw).
  destruct (m w) as [[] w']; simpl in *; auto. intros _. apply (proj1 HP), Hm. discriminate.
Qed.

End Live.

(** Proves [preserves_live P m] for a script [m] built from the
    primitives; the sends go to [side]. *)
Ltac live_tac side :=
  repeat (intros;
          first [ apply preserves_live_bind
                | apply preserves_live_if
                | apply preserves_live_for_each_try_break
                | apply preserves_live_for_each
                | solve [side]
                | apply preserves_live_of; solve [eauto with kylix]
                | apply preserves_live_and ]).

(** * Weakest preconditions for scripts that run to completion *)

Section Wp.
Context `{Node}.

(** [m] returns normally from [w], and [Q] holds of its value and world. *)
Definition wp {A} (m : M A) (Q : A -> World -> Prop) (w : World) : Prop :=
  match m w with (Done a, w') => Q a w' | _ => False end.

Lemma wp_bind {A B} (m : M A) (k : A -> M B) (Q : B -> World -> Prop) (w : World) :
  wp m (fun a w' => wp (k a) Q w') w -> wp (bind m k) Q w.
Proof. unfold wp, bind. by destruct (m w) as [[] w']. Qed.

Lemma wp_ret {A} (a : A) (Q : A -> World -> Prop) (w : World) : Q a w -> wp (ret a) Q w.
Proof. done. Qed.

Lemma wp_log (s : string) (Q : unit -> World -> Prop) (w : World) :
  Q tt (add_out [Line (ConsoleLog s)] w) -> wp (log s) Q w.
Proof. done. Qed.

Lemma wp_log_error (l : string) (e : JsError) (Q : unit -> World -> Prop) (w : World) :
  Q tt (add_out [ErrorWith l e] w) -> wp (log_error l e) Q w.
Proof. done. Qed.

Lemma wp_warn (s : string) (Q : unit -> World -> Prop) (w : World) :
  Q tt (add_out [Warn s] w) -> wp (warn s) Q w.
Proof. done. Qed.

Lemma wp_rpc_chain (Q : string -> World -> Prop) (w : World) :
  Q (chain_name (w_node w)) w -> wp rpc_chain Q w.
Proof. done. Qed.

Lemma wp_q_asset (id : Z) (Q : bool -> World -> Prop) (w : World) :
  Q (query_asset (w_node w) id) w -> wp (q_asset id) Q w.
Proof. done. Qed.

Lemma wp_q_account (id : Z) (who : Account) (Q : option Z -> World -> Prop) (w : World) :
  Q (query_account (w_node w) id who) w -> wp (q_account id who) Q w.
Proof. done. Qed.

Lemma wp_q_metadata (id : Z) (Q : option (string * string * Z) -> World -> Prop) (w : World) :
  Q (query_metadata (w_node w) id) w -> wp (q_metadata id) Q w.
Proof. done. Qed.

Lemma wp_build (c : Call) (Q : Call -> World -> Prop) (w : World) :
  encodable c = true -> Q c w -> wp (build c) Q w.
Proof. intros Hc HQ. unfold wp, build. by rewrite Hc. Qed.

Lemma wp_units (a d v : Z) (Q : Z -> World -> Prop) (w : World) :
  toChainUnits a d = Some v -> Q v w -> wp (units a d) Q w.
Proof. intros Hv HQ. unfold wp, units. by rewrite Hv. Qed.

Lemma wp_bn (o : option Z) (v : Z) (Q : Z -> World -> Prop) (w : World) :
  o = Some v -> Q v w -> wp (bn o) Q w.
Proof. intros -> HQ. done. Qed.

Lemma wp_if {A} (b : bool) (m1 m2 : M A) (Q : A -> World -> Prop) (w : World) :
  (b = true -> wp m1 Q w) -> (b = false -> wp m2 Q w) -> wp (if b then m1 else m2) Q w.
Proof. destruct b; auto. Qed.

Lemma wp_disconnect (Q : unit -> World -> Prop) (w : World) :
  Q tt (set_connected false w) -> wp disconnect Q w.
Proof. done. Qed.

(** A submission accepted by the node and dispatched successfully. *)
Definition includes_ok (s : NState) (signer : Account) (nonce : option Z) (c : Call) : Prop :=
  exists ph h, lifecycle PStart (fst (submit s signer nonce c)) = Some ph
               /\ first_inclusion (fst (submit s signer nonce c)) = Some (h, None).

(** A submission included in a block whose dispatch failed with [e]. *)
Definition includes_err (s : NState) (signer : Account) (nonce : option Z) (c : Call)
    (e : DispatchError) : Prop :=
  exists ph h, lifecycle PStart (fst (submit s signer nonce c)) = Some ph
               /\ first_inclusion (fst (submit s signer nonce c)) = Some (h, Some e).

Lemma send_and_await_ok (site : Site) (signer : Account) (nonce : option Z) (c : Call)
    (w : World) :
  includes_ok (w_node w) signer nonce c ->
  exists l, send_and_await (on_status_inblock site) signer nonce c w
            = (Done tt, add_out (map Line l)
                          (set_node (snd (submit (w_node w) signer nonce c))
                             (add_sent (nonce, c) w))).
Proof.
  intros (ph & h & Hlc & Hfirst). unfold send_and_await.
  destruct (inblock_settle_first_inclusion site _ ph h None Hlc Hfirst) as [rest Hw].
  destruct (submit (w_node w) signer nonce c) as [rs s'] eqn:E. simpl in *.
  rewrite Hw. by eexists.
Qed.

Lemma send_and_await_err (site : Site) (signer : Account) (nonce : option Z) (c : Call)
    (e : DispatchError) (w : World) :
  includes_err (w_node w) signer nonce c e ->
  exists l, send_and_await (on_status_inblock site) signer nonce c w
            = (Threw (ErrDispatch e),
               add_out (map Line l)
                 (set_node (snd (submit (w_node w) signer nonce c)) (add_sent (nonce, c) w))).
Proof.
  intros (ph & h & Hlc & Hfirst). unfold send_and_await.
  destruct (inblock_settle_first_inclusion site _ ph h (Some e) Hlc Hfirst) as [rest Hw].
  destruct (submit (w_node w) signer nonce c) as [rs s'] eqn:E. simpl in *.
  rewrite Hw. by eexists.
Qed.

Lemma wp_send_with_nonce (site : Site) (signer : Account) (c : Call)
    (Q : unit -> World -> Prop) (w : World) :
  includes_ok (w_node w) signer (Some (w_nonce w)) c ->
  (forall w', w_sent w' = w_sent w ++ [(Some (w_nonce w), c)] ->
              w_nonce w' = w_nonce w + 1 ->
              w_node w' = snd (submit (w_node w) signer (Some (w_nonce w)) c) ->
              w_connected w' = w_connected w ->
              Q tt w') ->
  wp (send_with_nonce (on_status_inblock site) signer c) Q w.
Proof.
  intros Hinc HQ. unfold wp, send_with_nonce.
  destruct (send_and_await_ok site signer (Some (w_nonce w)) c
              (set_nonce (w_nonce w + 1) w) Hinc) as [l ->].
  by apply HQ.
Qed.

Lemma wp_send_and_await (site : Site) (signer : Account) (nonce : option Z) (c : Call)
    (Q : unit -> World -> Prop) (w : World) :
  includes_ok (w_node w) signer nonce c ->
  (forall w', w_sent w' = w_sent w ++ [(nonce, c)] ->
              w_nonce w' = w_nonce w ->
              w_node w' = snd (submit (w_node w) signer nonce c) ->
              w_connected w' = w_connected w ->
              Q tt w') ->
  wp (send_and_await (on_status_inblock site) signer nonce c) Q w.
Proof.
  intros Hinc HQ. unfold wp.
  destruct (send_and_await_ok site signer nonce c w Hinc) as [l ->].
  by apply HQ.
Qed.

(** A submission whose stream is complete, carries no dispatch error and
    finalizes. *)
Definition finalizes_ok (s : NState) (signer : Account) (nonce : option Z) (c : Call) : Prop :=
  complete (fst (submit s signer nonce c)) = true
  /\ first_error (fst (submit s signer nonce c)) = None
  /\ is_Some (finalized_result (fst (submit s signer nonce c))).

Lemma send_and_await_fin_ok (site : Site) (signer : Account) (nonce : option Z) (c : Call)
    (w : World) :
  finalizes_ok (w_node w) signer nonce c ->
  exists l, send_and_await (on_status_finalized site) signer nonce c w
            = (Done tt, add_out (map Line l)
                          (set_node (snd (submit (w_node w) signer nonce c))
                             (add_sent (nonce, c) w))).
Proof.
  intros (Hc & Hfe & [d Hfr]). unfold send_and_await.
  pose proof (finalized_settle_verdict site _ Hc) as Hv.
  rewrite Hfe, Hfr in Hv. unfold awaited in Hv.
  destruct (submit (w_node w) signer nonce c) as [rs s'] eqn:E. simpl in *.
  destruct (await_settle _ rs Pending) as [[[q l] rest]|]; simpl in Hv; [|done].
  injection Hv as ->. by eexists.
Qed.

Lemma wp_send_and_await_fin (site : Site) (signer : Account) (nonce : option Z) (c : Call)
    (Q : unit -> World -> Prop) (w : World) :
  finalizes_ok (w_node w) signer nonce c ->
  (forall w', w_sent w' = w_sent w ++ [(nonce, c)] ->
              w_nonce w' = w_nonce w ->
              w_node w' = snd (submit (w_node w) signer nonce c) ->
              w_connected w' = w_connected w ->
              Q tt w') ->
  wp (send_and_await (on_status_finalized site) signer nonce c) Q w.
Proof.
  intros Hinc HQ. unfold wp.
  destruct (send_and_await_fin_ok site signer nonce c w Hinc) as [l ->].
  by apply HQ.
Qed.

(** A loop whose body returns normally keeps a loop invariant indexed by
    the elements still to process. *)
Lemma wp_for_each {A} (body : A -> M unit) (I : list A -> World -> Prop)
    (l : list A) (w : World) :
  I l w ->
  (forall a rest w, I (a :: rest) w -> wp (body a) (fun _ w' => I rest w') w) ->
  wp (for_each body l) (fun _ w' => I [] w') w.
Proof.
  intros HI Hb. revert w HI. induction l as [|a l IH]; intros w HI; [done|].
  simpl. apply wp_bind. specialize (Hb a l w HI). unfold wp in *.
  destruct (body a w) as [[]w']; try done. by apply IH.
Qed.

Lemma wp_for_each_try_break {A} (body : A -> M unit) (handler : A -> JsError -> M unit)
    (I : list A -> World -> Prop) (l : list A) (w : World) :
  I l w ->
  (forall a rest w, I (a :: rest) w -> wp (body a) (fun _ w' => I rest w') w) ->
  wp (for_each_try_break body handler l) (fun _ w' => I [] w') w.
Proof.
  intros HI Hb. revert w HI. induction l as [|a l IH]; intros w HI; [done|].
  specialize (Hb a l w HI). unfold wp in *. simpl.
  destruct (body a w) as [[]w']; try done. by apply IH.
Qed.

(** The calls a loop sends when every iteration returns normally and
    sends [f a]. *)
Lemma wp_for_each_try_break_sent {A} (body : A -> M unit) (handler : A -> JsError -> M unit)
    (f : A -> list Call) (l : list A) (w : World) :
  (forall a w, In a l ->
     wp (body a) (fun _ w' => map snd (w_sent w') = map snd (w_sent w) ++ f a) w) ->
  wp (for_each_try_break body handler l)
    (fun _ w' => map snd (w_sent w') = map snd (w_sent w) ++ concat (map f l)) w.
Proof.
  revert w. induction l as [|a l IH]; intros w Hb; simpl; [by rewrite app_nil_r|].
  specialize (Hb a w (or_introl eq_refl)) as Ha. unfold wp in *.
  destruct (body a w) as [[]w']; try done.
  specialize (IH w' (fun a' w'' Hin => Hb a' w'' (or_intror Hin))).
  destruct (for_each_try_break body handler l w') as [[]w'']; try done.
  by rewrite IH, Ha, app_assoc.
Qed.

Lemma wp_for_each_sent {A} (body : A -> M unit) (f : A -> list Call) (l : list A) (w : World) :
  (forall a w, In a l ->
     wp (body a) (fun _ w' => map snd (w_sent w') = map snd (w_sent w) ++ f a) w) ->
  wp (for_each body l)
    (fun _ w' => map snd (w_sent w') = map snd (w_sent w) ++ concat (map f l)) w.
Proof.
  revert w. induction l as [|a l IH]; intros w Hb; simpl; [by rewrite app_nil_r|].
  apply wp_bind. specialize (Hb a w (or_introl eq_refl)) as Ha. unfold wp in *.
  destruct (body a w) as [[]w']; try done.
  specialize (IH w' (fun a' w'' Hin => Hb a' w'' (or_intror Hin))).
  destruct (for_each body l w') as [[]w'']; try done.
  by rewrite IH, Ha, app_assoc.
Qed.

Lemma wp_catch_top (m : M unit) (Q : unit -> World -> Prop) (w : World) :
  wp m Q w -> wp (catch_top m) Q w.
Proof. unfold wp, catch_top. by destruct (m w) as [[]w']. Qed.

(** [wp] is monotone in its postcondition. *)
Lemma wp_mono {A} (m : M A) (Q1 Q2 : A -> World -> Prop) (w : World) :
  wp m Q1 w -> (forall a w', Q1 a w' -> Q2 a w') -> wp m Q2 w.
Proof. unfold wp. destruct (m w) as [[]w']; auto. Qed.

End Wp.

(** One step of a [wp] proof: the first primitive of the script is
    executed; side conditions go to [side]. *)
Ltac wp_step side :=
  match goal with
  | |- wp (bind _ _) _ _ => apply wp_bind
  | |- wp (log _) _ _ => apply wp_log
  | |- wp (log_error _ _) _ _ => apply wp_log_error
  | |- wp (warn _) _ _ => apply wp_warn
  | |- wp rpc_chain _ _ => apply wp_rpc_chain
  | |- wp (q_asset _) _ _ => apply wp_q_asset
  | |- wp (q_account _ _) _ _ => apply wp_q_account
  | |- wp (q_metadata _) _ _ => apply wp_q_metadata
  | |- wp (ret _) _ _ => apply wp_ret
  | |- wp disconnect _ _ => apply wp_disconnect
  | |- wp (build _) _ _ => apply wp_build; [side|]
  | |- wp (units _ _) _ _ => eapply wp_units; [side|]
  | |- wp (bn _) _ _ => eapply wp_bn; [side|]
  | |- wp (send_with_nonce _ _ _) _ _ =>
      apply wp_send_with_nonce; [side|]; intros ? ? ? ? ?
  | |- wp (send_and_await (on_status_inblock _) _ _ _) _ _ =>
      apply wp_send_and_await; [side|]; intros ? ? ? ? ?
  | |- wp (send_and_await (on_status_finalized _) _ _ _) _ _ =>
      apply wp_send_and_await_fin; [side|]; intros ? ? ? ? ?
  | |- wp (if _ then _ else _) _ _ => apply wp_if; intros ?
  | |- wp ?m _ _ => progress unfold m
  end; cbv beta.

Ltac wp_run side := repeat (wp_step side).

(** Rewrites [w_sent] and [w_connected] of the final world back to the
    initial one with the equations the [wp] steps introduced. *)
Ltac sent_unfold :=
  repeat (simpl in *;
          match goal with
          | H : w_sent ?x = _ |- context [w_sent ?x] => rewrite H; clear H
          | H : w_connected ?x = _ |- context [w_connected ?x] => rewrite H; clear H
          end).

(** * Runs that throw: a weakest precondition with an exceptional
    postcondition

    [wpx m Qd Qt w]: [m] does not block from [w]; when it returns, [Qd]
    holds of its value and world, when it throws, [Qt] holds of the
    exception and the world.  [wp m Q] is [wpx m Q] with no exception
    allowed. *)

Section Wpx.
Context `{Node}.

Definition wpx {A} (m : M A) (Qd : A -> World -> Prop) (Qt : JsError -> World -> Prop)
    (w : World) : Prop :=
  match m w with
  | (Done a, w') => Qd a w'
  | (Threw e, w') => Qt e w'
  | (Blocked, _) => False
  end.

Lemma wpx_of_wp {A} (m : M A) (Qd : A -> World -> Prop) (Qt : JsError -> World -> Prop)
    (w : World) :
  wp m Qd w -> wpx m Qd Qt w.
Proof. unfold wp, wpx. by destruct (m w) as [[] w']. Qed.

Lemma wpx_bind {A B} (m : M A) (k : A -> M B) (Qd : B -> World -> Prop)
    (Qt : JsError -> World -> Prop) (w : World) :
  wpx m (fun a w' => wpx (k a) Qd Qt w') Qt w -> wpx (bind m k) Qd Qt w.
Proof. unfold wpx, bind. by destruct (m w) as [[] w']. Qed.

(** A transaction included in a block whose dispatch failed: the in-block
    callback rejects, the script throws. *)
Lemma wpx_send_and_await_err (site : Site) (signer : Account) (nonce : option Z) (c : Call)
    (e : DispatchError) (Qd : unit -> World -> Prop) (Qt : JsError -> World -> Prop)
    (w : World) :
  includes_err (w_node w) signer nonce c e ->
  (forall w', w_sent w' = w_sent w ++ [(nonce, c)] ->
              w_connected w' = w_connected w ->
              Qt (ErrDispatch e) w') ->
  wpx (send_and_await (on_status_inblock site) signer nonce c) Qd Qt w.
Proof.
  intros Herr HQ. unfold wpx.
  destruct (send_and_await_err site signer nonce c e w Herr) as [l ->]. by apply HQ.
Qed.

(** A complete stream that carries a dispatch error. *)
Definition fails_fin (s : NState) (signer : Account) (nonce : option Z) (c : Call)
    (e : DispatchError) : Prop :=
  complete (fst (submit s signer nonce c)) = true
  /\ first_error (fst (submit s signer nonce c)) = Some e.

(** The finalized callback rejects with the first dispatch error of a
    complete stream. *)
Lemma wpx_send_and_await_fin_err (site : Site) (signer : Account) (nonce : option Z)
    (c : Call) (e : DispatchError) (Qd : unit -> World -> Prop)
    (Qt : JsError -> World -> Prop) (w : World) :
  fails_fin (w_node w) signer nonce c e ->
  (forall w', w_sent w' = w_sent w ++ [(nonce, c)] ->
              w_connected w' = w_connected w ->
              Qt (ErrDispatch e) w') ->
  wpx (send_and_await (on_status_finalized site) signer nonce c) Qd Qt w.
Proof.
  intros (Hc & Hfe) HQ. pose proof (finalized_settle_verdict site _ Hc) as Hv.
  rewrite Hfe in Hv. unfold awaited in Hv. unfold wpx, send_and_await.
  destruct (submit (w_node w) signer nonce c) as [rs s'] eqn:E. simpl in *.
  destruct (await_settle _ rs Pending) as [[[q l] rest]|]; simpl in Hv; [|done].
  injection Hv as ->. by apply HQ.
Qed.

Lemma wpx_if {A} (b : bool) (m1 m2 : M A) (Qd : A -> World -> Prop)
    (Qt : JsError -> World -> Prop) (w : World) :
  (b = true -> wpx m1 Qd Qt w) -> (b = false -> wpx m2 Qd Qt w) ->
  wpx (if b then m1 else m2) Qd Qt w.
Proof. destruct b; auto. Qed.

(** [for (const a of a :: l) { body }] without [try]. *)
Lemma wpx_for_each_cons {A} (body : A -> M unit) (a : A) (l : list A)
    (Qd : unit -> World -> Prop) (Qt : JsError -> World -> Prop) (w : World) :
  wpx (body a) (fun _ w' => wpx (for_each body l) Qd Qt w') Qt w ->
  wpx (for_each body (a :: l)) Qd Qt w.
Proof. apply wpx_bind. Qed.

(** [for (const a of a :: l) { try { body } catch (e) { handler; break; } }] *)
Lemma wp_for_each_try_break_cons {A} (body : A -> M unit) (handler : A -> JsError -> M unit)
    (a : A) (l : list A) (Q : unit -> World -> Prop) (w : World) :
  wpx (body a) (fun _ w' => wp (for_each_try_break body handler l) Q w')
    (fun e w' => wp (handler a e) Q w') w ->
  wp (for_each_try_break body handler (a :: l)) Q w.
Proof. unfold wpx, wp. simpl. by destruct (body a w) as [[] w']. Qed.

(** [main().catch(console.error)]: an exception is printed and the run
    returns. *)
Lemma wp_catch_top_wpx (m : M unit) (Q : unit -> World -> Prop) (w : World) :
  wpx m Q (fun e w' => Q tt (add_out [ErrorWith "" e] w')) w -> wp (catch_top m) Q w.
Proof. unfold wpx, wp, catch_top. by destruct (m w) as [[] w']. Qed.

End Wpx.

(** One step of a [wpx] proof: binds, loops without [try], failing sends;
    the primitives that return go through [wp_step]. *)
Ltac wpx_step side :=
  match goal with
  | |- wpx (bind _ _) _ _ _ => apply wpx_bind
  | |- wpx (for_each _ (_ :: _)) _ _ _ => apply wpx_for_each_cons
  | |- wpx (if _ then _ else _) _ _ _ => apply wpx_if; intros ?
  | |- wpx (send_and_await (on_status_inblock _) _ _ _) _ _ _ =>
      eapply wpx_send_and_await_err; [side|]; intros ? ? ?
  | |- wpx (send_and_await (on_status_finalized _) _ _ _) _ _ _ =>
      eapply wpx_send_and_await_fin_err; [side|]; intros ? ? ?
  | |- wpx ?m _ _ _ => apply wpx_of_wp; wp_step side
  | |- wp _ _ _ => wp_step side
  end; cbv beta.

Ltac wpx_run side := repeat (wpx_step side).

(** * Loops that stop at a failing element

    The element [a] after the prefix [pre] throws [E] after sending
    [fa]: without [try] the
    exception leaves the loop, with [try ... catch { break }] the handler
    runs and the loop ends; the elements after [a] are never processed. *)

Section FailAt.
Context `{Node}.
Context {A : Type} (body : A -> M unit) (f : A -> list Call).

(** [body b] returns normally, sends [f b] and keeps the connection. *)
Definition body_sends (b : A) : Prop :=
  forall w, wp (body b) (fun _ w' => map snd (w_sent w') = map snd (w_sent w) ++ f b
                                     /\ w_connected w' = w_connected w) w.

(** [body a] throws [E] after sending [fa], keeping the connection. *)
Definition body_throws (a : A) (fa : list Call) (E : JsError) : Prop :=
  forall w, wpx (body a) (fun _ _ => False)
              (fun e w' => e = E /\ map snd (w_sent w') = map snd (w_sent w) ++ fa
                           /\ w_connected w' = w_connected w) w.

Lemma wpx_for_each_fail_at (pre post : list A) (a : A) (fa : list Call) (E : JsError)
    (Qd : unit -> World -> Prop) (Qt : JsError -> World -> Prop) (w : World) :
  Forall body_sends pre -> body_throws a fa E ->
  (forall w', map snd (w_sent w') = map snd (w_sent w) ++ concat (map f pre) ++ fa ->
              w_connected w' = w_connected w -> Qt E w') ->
  wpx (for_each body (pre ++ a :: post)) Qd Qt w.
Proof.
  intros Hok Hfail. revert w. induction Hok as [|b pre Hb Hok IH]; intros w HQ; simpl.
  - apply wpx_bind. specialize (Hfail w). unfold wpx in *.
    destruct (body a w) as [[|e|] w']; try done. destruct Hfail as (-> & Hs & Hc). by apply HQ.
  - apply wpx_bind. specialize (Hb w). unfold wp, wpx in *.
    destruct (body b w) as [[|e|] w1]; try done. destruct Hb as [Hs1 Hc1].
    apply IH. intros w' Hs Hc. apply HQ; [|congruence].
    rewrite Hs, Hs1. simpl. by rewrite <- !app_assoc.
Qed.

Lemma wp_for_each_try_break_fail_at (handler : A -> JsError -> M unit) (pre post : list A)
    (a : A) (fa : list Call) (E : JsError) (Q : unit -> World -> Prop) (w : World) :
  Forall body_sends pre -> body_throws a fa E ->
  (forall w', map snd (w_sent w') = map snd (w_sent w) ++ concat (map f pre) ++ fa ->
              w_connected w' = w_connected w -> wp (handler a E) Q w') ->
  wp (for_each_try_break body handler (pre ++ a :: post)) Q w.
Proof.
  intros Hok Hfail. revert w. induction Hok as [|b pre Hb Hok IH]; intros w HQ; simpl.
  - specialize (Hfail w). unfold wpx, wp in *.
    destruct (body a w) as [[|e|] w']; try done. destruct Hfail as (-> & Hs & Hc). by apply HQ.
  - specialize (Hb w). unfold wp in *.
    destruct (body b w) as [[|e|] w1]; try done. destruct Hb as [Hs1 Hc1].
    apply IH. intros w' Hs Hc. apply HQ; [|congruence].
    rewrite Hs, Hs1. simpl. by rewrite <- !app_assoc.
Qed.

End FailAt.
