(* ===== verification/Ledger.v ===== *)
(** * Ledger: a reference node for the scripts

    A concrete instance of the [Node] interface: a development chain with
    the pallets the scripts call, in the way Substrate's FRAME pallets
    behave, so that the theorems about the scripts can be run on a node
    and the end-to-end properties have a chain to hold on.  It is the
    environment of the repository, not its code:
    - [pallet_balances]: [transfer_keep_alive] with an existential deposit;
    - [pallet_assets]: [create], [set_metadata], [mint], [transfer], with
      the owner/issuer checks and the minimum balance;
    - the lending pallet of the target chain, one pool per asset:
      [create_lending_pool] moves the deposit from the signer to the pool,
      [activate_lending_pool] needs the root origin;
    - [pallet_sudo]: [sudo] dispatches its call as root and reports the
      inner result in its [Sudid] event only: the extrinsic itself
      succeeds;
    - the transaction pool: an explicit nonce below the account's is
      [Invalid], above it waits in the future queue forever; otherwise
      the extrinsic is included and its nonce consumed whatever its
      dispatch result, and the network's [Fate] for that submission
      decides the notifications.
    Its lemmas state what the scripts' proofs need of it: when a send is
    included ([ledger_includes_ok], [ledger_submit_none]), that a counter
    in step with the chain stays so ([ledger_send_with_nonce_sync]), and
    the effect of a mint by the admin and of a transfer to oneself. *)

From stdpp Require Import gmap.
From S2P Require Import Prelude Units Submit Script.

Module Ledger.

(** ** Errors of the reference runtime *)

Definition IDX_BALANCES : Z := 10.
Definition IDX_ASSETS : Z := 50.
Definition IDX_LENDING : Z := 60.
Definition IDX_SUDO : Z := 5.

Definition err (pallet code : Z) : option DispatchError :=
  Some (DEModule (mkModuleError pallet code)).

Definition balances_InsufficientBalance := err IDX_BALANCES 2.
Definition balances_Expendability := err IDX_BALANCES 4.
Definition assets_BalanceLow := err IDX_ASSETS 0.
Definition assets_NoPermission := err IDX_ASSETS 2.
Definition assets_Unknown := err IDX_ASSETS 3.
Definition assets_InUse := err IDX_ASSETS 5.
Definition assets_MinBalanceZero := err IDX_ASSETS 7.
Definition assets_BelowMinimum := err IDX_ASSETS 11.
Definition lending_AssetNotFound := err IDX_LENDING 0.
Definition lending_PoolAlreadyExists := err IDX_LENDING 1.
Definition lending_PoolNotFound := err IDX_LENDING 2.
Definition lending_NotEnoughBalance := err IDX_LENDING 3.
Definition sudo_RequireSudo := err IDX_SUDO 0.
Definition BadOrigin : option DispatchError := Some (DEOther "BadOrigin").

(** The registry: [findMetaError] of the runtime's metadata. *)
Definition find_meta_error (m : ModuleError) : RegistryError :=
  let sec := if decide (me_index m = IDX_BALANCES) then "balances"
             else if decide (me_index m = IDX_ASSETS) then "assets"
             else if decide (me_index m = IDX_LENDING) then "lending"
             else if decide (me_index m = IDX_SUDO) then "sudo" else "unknown" in
  let nm := match me_index m, me_error m with
            | 10, 2 => "InsufficientBalance" | 10, 4 => "Expendability"
            | 50, 0 => "BalanceLow" | 50, 2 => "NoPermission" | 50, 3 => "Unknown"
            | 50, 5 => "InUse" | 50, 7 => "MinBalanceZero" | 50, 11 => "BelowMinimum"
            | 60, 0 => "AssetNotFound" | 60, 1 => "PoolAlreadyExists"
            | 60, 2 => "PoolNotFound" | 60, 3 => "NotEnoughBalance"
            | 5, 0 => "RequireSudo"
            | _, _ => "Unknown"
            end in
  mkRegistryError sec nm.

(** ** State *)

Record AssetDetails := mkAsset { a_owner : Account; a_admin : Account; a_min : Z }.

Record Pool := mkPool { p_id : Z; p_reserve : Z; p_active : bool }.

(** What the network does with one submission. *)
Inductive Fate :=
| Include        (** ready, in block, finalized *)
| DropIt         (** ready, dropped *)
| NoFinality.    (** ready, in block, finality timeout *)

Record LState := mkL {
  l_assets : gmap Z AssetDetails;
  l_meta : gmap Z (string * string * Z);
  l_bal : gmap (Z * Account) Z;
  l_native : gmap Account Z;
  l_pools : gmap Z Pool;
  l_nonce : gmap Account Z;
  l_height : Z;
  l_sudo_key : Account;
  l_fates : list Fate
}.

Definition ED : Z := 1.

Definition bal (s : LState) (id : Z) (who : Account) : Z :=
  default 0 (l_bal s !! (id, who)).
Definition native (s : LState) (who : Account) : Z :=
  default 0 (l_native s !! who).
Definition nonce_of (s : LState) (who : Account) : Z :=
  default 0 (l_nonce s !! who).

Definition with_assets (s : LState) (m : gmap Z AssetDetails) : LState :=
  mkL m (l_meta s) (l_bal s) (l_native s) (l_pools s) (l_nonce s) (l_height s) (l_sudo_key s) (l_fates s).
Definition with_meta (s : LState) (m : gmap Z (string * string * Z)) : LState :=
  mkL (l_assets s) m (l_bal s) (l_native s) (l_pools s) (l_nonce s) (l_height s) (l_sudo_key s) (l_fates s).
Definition with_bal (s : LState) (m : gmap (Z * Account) Z) : LState :=
  mkL (l_assets s) (l_meta s) m (l_native s) (l_pools s) (l_nonce s) (l_height s) (l_sudo_key s) (l_fates s).
Definition with_native (s : LState) (m : gmap Account Z) : LState :=
  mkL (l_assets s) (l_meta s) (l_bal s) m (l_pools s) (l_nonce s) (l_height s) (l_sudo_key s) (l_fates s).
Definition with_pools (s : LState) (m : gmap Z Pool) : LState :=
  mkL (l_assets s) (l_meta s) (l_bal s) (l_native s) m (l_nonce s) (l_height s) (l_sudo_key s) (l_fates s).
Definition with_chain (s : LState) (n : gmap Account Z) (h : Z) (f : list Fate) : LState :=
  mkL (l_assets s) (l_meta s) (l_bal s) (l_native s) (l_pools s) n h (l_sudo_key s) f.

(** ** Dispatch *)

Inductive Origin := Signed (who : Account) | Root.

Definition set_bal (s : LState) (id : Z) (who : Account) (v : Z) : LState :=
  with_bal s (<[(id, who) := v]> (l_bal s)).

(** [pallet_assets::transfer] core: debit then credit, refusing a new
    account below the minimum balance. *)
Definition move_asset (s : LState) (d : AssetDetails) (id : Z) (from to : Account)
    (amount : Z) : option DispatchError * LState :=
  if decide (bal s id from < amount) then (assets_BalanceLow, s)
  else if decide (bal s id to = 0 /\ amount < a_min d) then (assets_BelowMinimum, s)
  else let s1 := set_bal s id from (bal s id from - amount) in
       (None, set_bal s1 id to (bal s1 id to + amount)).

Fixpoint dispatch (o : Origin) (c : Call) (s : LState) : option DispatchError * LState :=
  match c, o with
  | BalancesTransferKeepAlive dest v, Signed who =>
      if decide (native s who < v) then (balances_InsufficientBalance, s)
      else if decide (native s who - v < ED) then (balances_Expendability, s)
      else let s1 := with_native s (<[who := native s who - v]> (l_native s)) in
           (None, with_native s1 (<[dest := native s1 dest + v]> (l_native s1)))
  | AssetsCreate id admin minb, Signed who =>
      if decide (is_Some (l_assets s !! id)) then (assets_InUse, s)
      else if decide (minb <= 0) then (assets_MinBalanceZero, s)
      else (None, with_assets s (<[id := mkAsset who admin minb]> (l_assets s)))
  | AssetsSetMetadata id nm sym dec, Signed who =>
      match l_assets s !! id with
      | None => (assets_Unknown, s)
      | Some d => if decide (a_owner d = who)
                  then (None, with_meta s (<[id := (nm, sym, dec)]> (l_meta s)))
                  else (assets_NoPermission, s)
      end
  | AssetsMint id ben amount, Signed who =>
      match l_assets s !! id with
      | None => (assets_Unknown, s)
      | Some d =>
          if decide (a_admin d <> who) then (assets_NoPermission, s)
          else if decide (bal s id ben = 0 /\ amount < a_min d) then (assets_BelowMinimum, s)
          else (None, set_bal s id ben (bal s id ben + amount))
      end
  | AssetsTransfer id target amount, Signed who =>
      match l_assets s !! id with
      | None => (assets_Unknown, s)
      | Some d => move_asset s d id who target amount
      end
  | LendingCreatePool pid (WithId id) amount, Signed who =>
      if decide (l_assets s !! id = None) then (lending_AssetNotFound, s)
      else if decide (is_Some (l_pools s !! id)) then (lending_PoolAlreadyExists, s)
      else if decide (bal s id who < amount) then (lending_NotEnoughBalance, s)
      else let s1 := set_bal s id who (bal s id who - amount) in
           (None, with_pools s1 (<[id := mkPool pid amount false]> (l_pools s1)))
  | LendingActivatePool (WithId id), Root =>
      match l_pools s !! id with
      | None => (lending_PoolNotFound, s)
      | Some p => (None, with_pools s (<[id := mkPool (p_id p) (p_reserve p) true]> (l_pools s)))
      end
  | LendingActivatePool _, Signed _ => (BadOrigin, s)
  | SudoSudo inner, Signed who =>
      if decide (who = l_sudo_key s) then (None, snd (dispatch Root inner s))
      else (sudo_RequireSudo, s)
  | SudoSudo _, Root => (BadOrigin, s)
  | _, Root => (BadOrigin, s)
  end.

(** ** The transaction pool and the network *)

Definition block_hash (n : Z) : BlockHash := "0x" +++ pretty n.

(** [signAndSend]: the nonce check of the pool, then the network's fate
    for the submission; an included extrinsic consumes its nonce whatever
    its dispatch result, and a failed dispatch leaves the state as it was
    (fees are not modelled). *)
Definition submit_l (s : LState) (who : Account) (nonce : option Z) (c : Call)
  : list SubmittableResult * LState :=
  let n := default (nonce_of s who) nonce in
  if decide (n < nonce_of s who) then ([mkResult Invalid None], s)
  else if decide (nonce_of s who < n) then ([mkResult Future None], s)
  else
    let '(fate, rest) := match l_fates s with [] => (Include, []) | f :: fs => (f, fs) end in
    match fate with
    | DropIt =>
        ([mkResult Ready None; mkResult Dropped None],
         with_chain s (l_nonce s) (l_height s) rest)
    | _ =>
        let '(d, s1) := dispatch (Signed who) c s in
        let h := block_hash (l_height s + 1) in
        let last := match fate with
                    | NoFinality => mkResult (FinalityTimeout h) None
                    | _ => mkResult (Finalized h) d
                    end in
        ([mkResult Ready None; mkResult (InBlock h) d; last],
         with_chain s1 (<[who := n + 1]> (l_nonce s1)) (l_height s + 1) rest)
    end.

(** ** Runtime types and keys *)

Definition fits_u32 (v : Z) : bool := (0 <=? v) && (v <? 2 ^ 32).
Definition fits_u8 (v : Z) : bool := (0 <=? v) && (v <? 2 ^ 8).

Fixpoint encodable_l (c : Call) : bool :=
  match c with
  | BalancesTransferKeepAlive _ v => fits_u128 v
  | AssetsCreate id _ minb => fits_u32 id && fits_u128 minb
  | AssetsSetMetadata id _ _ dec => fits_u32 id && fits_u8 dec
  | AssetsMint id _ a | AssetsTransfer id _ a => fits_u32 id && fits_u128 a
  | LendingCreatePool pid (WithId id) a => fits_u32 pid && fits_u32 id && fits_u128 a
  | LendingActivatePool (WithId id) => fits_u32 id
  | SudoSudo c => encodable_l c
  end.

Definition ALICE : Account := "5GrwvaEF5zXb26Fz9rcQpDWS57CtERHpNehXCPcNoHGKutQY".
Definition BOB : Account := "5FHneW46xGXgs5mUiveU4sbTyGBzmstUspZC92UhjJM694ty".

(** [keyring.addFromUri(uri).address] for the development keys. *)
Definition dev_address (uri : string) : Account :=
  if decide (uri = "//Alice") then ALICE
  else if decide (uri = "//Bob") then BOB
  else uri.

Definition ledger_registry : Registry := {| findMetaError := find_meta_error |}.

Definition LedgerNode : Node := {|
  NState := LState;
  node_registry := ledger_registry;
  chain_name := fun _ => "Development";
  address_of_uri := dev_address;
  accountNextIndex := nonce_of;
  query_asset := fun s id => bool_decide (is_Some (l_assets s !! id));
  query_account := fun s id who => l_bal s !! (id, who);
  query_metadata := fun s id => l_meta s !! id;
  encodable := encodable_l;
  submit := submit_l
|}.

(** A fresh development chain: Alice is endowed and holds the sudo key. *)
Definition genesis (fates : list Fate) : LState :=
  mkL ∅ ∅ ∅ (<[ALICE := 10 ^ 21]> (<[BOB := 10 ^ 21]> ∅)) ∅ ∅ 0 ALICE fates.

(** The world a script starts from. *)
Definition start (s : LState) : @World LedgerNode := @mkWorld LedgerNode s [] [] 0 true.

(** ** Test nodes

    Every submission is ready, included and finalized; [fail] gives the
    dispatch result of each call, and the state only counts blocks.
    [present] says which assets the queries find.  With no failure, the
    node the happy-path theorems assume. *)
Definition test_stream (s : Z) (d : option DispatchError) : list SubmittableResult :=
  [mkResult Ready None; mkResult (InBlock (block_hash (s + 1))) d;
   mkResult (Finalized (block_hash (s + 1))) d].

Definition TestNode (present : Z -> bool) (fail : Call -> option DispatchError) : Node := {|
  NState := Z;
  node_registry := ledger_registry;
  chain_name := fun _ => "Development";
  address_of_uri := dev_address;
  accountNextIndex := fun s _ => s;
  query_asset := fun _ id => present id;
  query_account := fun _ _ _ => None;
  query_metadata := fun _ _ => None;
  encodable := fun _ => true;
  submit := fun s _ _ c => (test_stream s (fail c), s + 1)
|}.

Definition AcceptNodeWith (present : Z -> bool) : Node := TestNode present (fun _ => None).

(** The node on which no asset exists. *)
Definition AcceptNode : Node := AcceptNodeWith (fun _ => false).

Lemma test_node_includes_err (present : Z -> bool) (fail : Call -> option DispatchError)
    (s : Z) (signer : Account) (n : option Z) (c : Call) (e : DispatchError) :
  fail c = Some e -> @includes_err (TestNode present fail) s signer n c e.
Proof.
  intros Hf. unfold includes_err. simpl. rewrite Hf. simpl.
  rewrite decide_True by done. by eexists _, _.
Qed.

Lemma test_node_fails_fin (present : Z -> bool) (fail : Call -> option DispatchError)
    (s : Z) (signer : Account) (n : option Z) (c : Call) (e : DispatchError) :
  fail c = Some e -> @fails_fin (TestNode present fail) s signer n c e.
Proof.
  intros Hf. unfold fails_fin, complete. simpl. rewrite Hf. simpl.
  by rewrite !decide_True by done.
Qed.

Lemma test_node_includes_ok (present : Z -> bool) (fail : Call -> option DispatchError)
    (s : Z) (signer : Account) (n : option Z) (c : Call) :
  fail c = None -> @includes_ok (TestNode present fail) s signer n c.
Proof.
  intros Hf. unfold includes_ok. simpl. rewrite Hf. simpl.
  rewrite decide_True by done. by eexists _, _.
Qed.

Lemma test_node_finalizes_ok (present : Z -> bool) (fail : Call -> option DispatchError)
    (s : Z) (signer : Account) (n : option Z) (c : Call) :
  fail c = None -> @finalizes_ok (TestNode present fail) s signer n c.
Proof.
  intros Hf. unfold finalizes_ok, complete. simpl. rewrite Hf. simpl.
  rewrite decide_True by done. split; [done|]. split; [done|]. by eexists.
Qed.

Lemma accept_node_includes_ok (present : Z -> bool) (s : Z) (signer : Account)
    (n : option Z) (c : Call) :
  @includes_ok (AcceptNodeWith present) s signer n c.
Proof. by apply test_node_includes_ok. Qed.

Lemma accept_node_finalizes_ok (present : Z -> bool) (s : Z) (signer : Account)
    (n : option Z) (c : Call) :
  @finalizes_ok (AcceptNodeWith present) s signer n c.
Proof. by apply test_node_finalizes_ok. Qed.

(** The reference pool includes a transaction sent with the signer's
    next nonce, unless the network drops it, with the dispatch result of
    the runtime. *)
Lemma ledger_includes_ok (s : LState) (who : Account) (c : Call) :
  hd_error (l_fates s) <> Some DropIt ->
  fst (dispatch (Signed who) c s) = None ->
  @includes_ok LedgerNode s who (Some (nonce_of s who)) c.
Proof.
  intros Hf Hd. unfold includes_ok. simpl. unfold submit_l. simpl.
  rewrite !decide_False by lia.
  destruct (dispatch (Signed who) c s) as [d s1] eqn:E. simpl in Hd. subst d.
  destruct (l_fates s) as [|[] fs]; simpl in *; try congruence;
    rewrite ?decide_True by done; by eexists _, _.
Qed.

(** A submission without an explicit nonce on a network that includes
    everything: the pool takes the next nonce, and the chain after it is
    the one the dispatch left, its nonce and height advanced. *)
Lemma ledger_submit_none (s : LState) (who : Account) (c : Call) :
  l_fates s = [] ->
  fst (dispatch (Signed who) c s) = None ->
  @includes_ok LedgerNode s who None c
  /\ snd (submit_l s who None c)
     = with_chain (snd (dispatch (Signed who) c s))
         (<[who := nonce_of s who + 1]> (l_nonce (snd (dispatch (Signed who) c s))))
         (l_height s + 1) [].
Proof.
  intros Hf Hd. unfold includes_ok. simpl. unfold submit_l. cbn [default].
  rewrite !(decide_False (P := nonce_of s who < nonce_of s who)) by lia. rewrite Hf.
  destruct (dispatch (Signed who) c s) as [d s1]. simpl in Hd. subst d.
  split; [|done]. simpl. rewrite decide_True by done. by eexists _, _.
Qed.

Lemma bal_set_bal (s : LState) (id : Z) (who : Account) (v : Z) :
  bal (set_bal s id who v) id who = v.
Proof. unfold bal, set_bal. simpl. by rewrite lookup_insert_eq. Qed.

(** [assets.mint] by the asset's admin to itself. *)
Lemma dispatch_mint_admin (s : LState) (id : Z) (who : Account) (d : AssetDetails) (v : Z) :
  l_assets s !! id = Some d -> a_admin d = who -> a_min d <= v ->
  dispatch (Signed who) (AssetsMint id who v) s = (None, set_bal s id who (bal s id who + v)).
Proof.
  intros Hd Ha Hm. simpl. rewrite Hd.
  rewrite decide_False by congruence. by rewrite decide_False by lia.
Qed.

(** [assets.transfer] to the sender itself: the balance is debited and
    credited back. *)
Lemma dispatch_transfer_self (s : LState) (id : Z) (who : Account) (d : AssetDetails) (v : Z) :
  l_assets s !! id = Some d -> 0 < v <= bal s id who ->
  fst (dispatch (Signed who) (AssetsTransfer id who v) s) = None
  /\ bal (snd (dispatch (Signed who) (AssetsTransfer id who v) s)) id who = bal s id who
  /\ l_assets (snd (dispatch (Signed who) (AssetsTransfer id who v) s)) = l_assets s.
Proof.
  intros Hd Hv. simpl. rewrite Hd. unfold move_asset.
  rewrite decide_False by lia. rewrite decide_False by lia. simpl.
  rewrite !bal_set_bal. split; [done|]. split; [lia | done].
Qed.

(** ** The manual nonce counter against the reference pool *)

(** The script's counter is the chain's next nonce for [who]. *)
Definition nonce_sync (who : Account) (w : @World LedgerNode) : Prop :=
  w_nonce w = nonce_of (w_node w) who.

Lemma nonce_sync_quiet (who : Account) : quiet (nonce_sync who).
Proof. split; intros ? w; done. Qed.

#[export] Hint Resolve nonce_sync_quiet : kylix.

(** A send with [nonce++] from a counter in step with the chain either
    blocks (the network dropped it) or is included, which consumes the
    chain's nonce: the counter stays in step, whatever the dispatch. *)
Lemma ledger_send_with_nonce_sync (site : Site) (who : Account) (c : Call) :
  @preserves_live LedgerNode unit (nonce_sync who)
    (@send_with_nonce LedgerNode (@on_status_inblock (@node_registry LedgerNode) site) who c).
Proof.
  intros w Hw Hnb. unfold nonce_sync in *.
  destruct (@send_with_nonce_world LedgerNode
              (@on_status_inblock (@node_registry LedgerNode) site) who c w) as [-> ->].
  revert Hnb. unfold send_with_nonce, send_and_await. simpl. unfold submit_l.
  rewrite <- Hw. cbn [default].
  rewrite !(decide_False (P := w_nonce w < w_nonce w)) by lia.
  destruct (l_fates (w_node w)) as [|[] fs]; simpl; try congruence.
  all: destruct (dispatch (Signed who) c (w_node w)) as [d s1]; intros _.
  all: unfold nonce_of; simpl; by rewrite lookup_insert_eq.
Qed.

End Ledger.
