(* ===== verification/FullSetup.v ===== *)
(** * FullSetup: [src/full-setup-sudo.ts]

    The whole script: connect, read the admin's next nonce once, transfer
    native balance to [TARGET], then for each asset of the table create it
    and set its metadata when it does not exist, mint to the admin,
    transfer to [TARGET], create its lending pool and activate the pool
    through [sudo]; an exception aborts the loop ([break]); the final
    banner and the disconnection follow the loop in every case.  Every
    transaction passes [{ nonce: nonce++ }] and resolves on [InBlock].
    Log lines are kept without their leading emoji and trailing newlines. *)

From S2P Require Import Prelude Units Submit Script Ledger.

Module FullSetup.

Definition WS_ENDPOINT : string := "ws://127.0.0.1:9944".
Definition ADMIN_SEED : string := "//Alice".
Definition TARGET : Account := "5EYCAe5hjcu8UT2sh5HhPXrLgSbTtxpeQZCKAjvgSJPmc7LA".

(** [new BN('1000000000000000')]: built from a string, exact. *)
Definition transferAmount : Z := 1000000000000000.

(** ['='.repeat(60)] *)
Definition rule : string := String.concat "" (repeat "=" 60).

(** The printing of [(await api.query.assets.account(id, TARGET)).toJSON()]:
    [null] for an absent account, its balance otherwise. *)
Definition show_account (b : option Z) : string :=
  match b with None => "null" | Some v => pretty v end.

(** What [banner] prints. *)
Definition banner_lines : list Out :=
  [Line (ConsoleLog rule);
   Line (ConsoleLog "All assets and lending pools created successfully!");
   Line (ConsoleLog rule)].

(** The seven call sites: what each prints on failure and on success. *)
Definition site_native : Site :=
  mkSite "Transfer failed: " (fun h => "Native transfer in block " +++ h).
Definition site_create : Site :=
  mkSite "Create failed: " (fun h => "Asset created in block " +++ h).
Definition site_metadata : Site :=
  mkSite "Metadata failed: " (fun h => "Metadata set in block " +++ h).
Definition site_mint (amount : Z) (symbol : string) : Site :=
  mkSite "Mint failed: " (fun _ => "Minted " +++ pretty amount +++ " " +++ symbol).
Definition site_transfer (amount : Z) (symbol : string) : Site :=
  mkSite "Transfer failed: " (fun _ => "Transferred " +++ pretty amount +++ " " +++ symbol).
Definition site_pool (poolId : Z) : Site :=
  mkSite "Pool creation failed: "
    (fun h => "Pool " +++ pretty poolId +++ " created in block " +++ h).
Definition site_activate (poolId : Z) : Site :=
  mkSite "Pool activation failed: "
    (fun h => "Pool " +++ pretty poolId +++ " activated in block " +++ h).

Section WithNode.
Context `{Node}.

(** Lines 79-135: create the asset and set its metadata when the query
    finds none. *)
Definition create_if_absent (admin : Account) (asset : AssetConfig.t) : M unit :=
  let id := AssetConfig.id asset in
  assetDetails <- q_asset id ;;
  if negb assetDetails then
    log ("Creating asset " +++ pretty id +++ "...") ;;
    createTx <- build (AssetsCreate id admin 1) ;;
    send_with_nonce (on_status_inblock site_create) admin createTx ;;
    log ("Setting metadata for " +++ AssetConfig.symbol asset +++ "...") ;;
    metaTx <- build (AssetsSetMetadata id (AssetConfig.name asset)
                       (AssetConfig.symbol asset) (AssetConfig.decimals asset)) ;;
    send_with_nonce (on_status_inblock site_metadata) admin metaTx
  else
    log ("Asset " +++ pretty id +++ " already exists, skipping creation").

(** Lines 74-239: the body of the [try] block for one asset. *)
Definition setup_asset (admin : Account) (asset : AssetConfig.t) : M unit :=
  let id := AssetConfig.id asset in
  let symbol := AssetConfig.symbol asset in
  let decimals := AssetConfig.decimals asset in
  log rule ;;
  log ("Setting up: " +++ AssetConfig.name asset +++ " (" +++ symbol
       +++ ") - ID " +++ pretty id) ;;
  log rule ;;
  create_if_absent admin asset ;;
  log ("Minting 1,000,000 " +++ symbol +++ " to admin...") ;;
  mintAmount <- units MINT_TOKENS decimals ;;
  mintTx <- build (AssetsMint id admin mintAmount) ;;
  send_with_nonce (on_status_inblock (site_mint mintAmount symbol)) admin mintTx ;;
  log ("Transferring 10,000 " +++ symbol +++ " to target...") ;;
  transferTokenAmount <- units TRANSFER_TOKENS decimals ;;
  transferTx <- build (AssetsTransfer id TARGET transferTokenAmount) ;;
  send_with_nonce (on_status_inblock (site_transfer transferTokenAmount symbol))
    admin transferTx ;;
  log ("Creating lending pool " +++ pretty (AssetConfig.poolId asset) +++ "...") ;;
  poolAmount <- units POOL_TOKENS decimals ;;
  poolTx <- build (LendingCreatePool (AssetConfig.poolId asset) (WithId id) poolAmount) ;;
  send_with_nonce (on_status_inblock (site_pool (AssetConfig.poolId asset))) admin poolTx ;;
  log ("Activating lending pool " +++ pretty (AssetConfig.poolId asset) +++ "...") ;;
  activateTx <- build (LendingActivatePool (WithId id)) ;;
  sudoActivateTx <- build (SudoSudo activateTx) ;;
  send_with_nonce (on_status_inblock (site_activate (AssetConfig.poolId asset)))
    admin sudoActivateTx ;;
  targetBalance <- q_account id TARGET ;;
  log ("Target balance for " +++ symbol +++ ": " +++ show_account targetBalance).

(** Lines 241-244: [catch (err) { console.error(...); break; }]. *)
Definition on_asset_error (asset : AssetConfig.t) (err : JsError) : M unit :=
  log_error ("Error while processing " +++ AssetConfig.name asset +++ ":") err.

(** Lines 33-42: connection and the first lines. *)
Definition connect (admin : Account) : M unit :=
  log ("Connecting to node: " +++ WS_ENDPOINT) ;;
  chain <- rpc_chain ;;
  log ("Connected to chain: " +++ chain) ;;
  log ("Using admin: " +++ admin) ;;
  log ("Target account: " +++ TARGET).

(** Lines 47-70: the native transfer, outside the [try]. *)
Definition native_transfer (admin : Account) : M unit :=
  log ("Transferring native balance to " +++ TARGET +++ "...") ;;
  tx <- build (BalancesTransferKeepAlive TARGET transferAmount) ;;
  send_with_nonce (on_status_inblock site_native) admin tx.

(** Lines 247-249: the closing banner. *)
Definition banner : M unit :=
  log rule ;;
  log "All assets and lending pools created successfully!" ;;
  log rule.

(** Lines 45-251 after the connection. *)
Definition main_body (admin : Account) : M unit :=
  native_transfer admin ;;
  for_each_try_break (setup_asset admin) on_asset_error full_setup_assets ;;
  banner ;;
  disconnect.

(** [async function main()], lines 32-252. *)
Definition main : M unit :=
  let admin := address_of_uri ADMIN_SEED in
  connect admin ;;
  init_nonce admin ;;
  main_body admin.

(** [main().catch(console.error)], line 254. *)
Definition run : M unit := catch_top main.

End WithNode.
End FullSetup.

(** * Properties *)

Module FullSetupProofs.
Import FullSetup.

Section WithNode.
Context `{Node}.

Lemma connect_world (admin : Account) (w : World) :
  fst (connect admin w) = Done tt
  /\ w_sent (snd (connect admin w)) = w_sent w
  /\ w_node (snd (connect admin w)) = w_node w
  /\ w_connected (snd (connect admin w)) = w_connected w.
Proof. done. Qed.

Lemma main_body_nonce_inv (n0 : Z) (admin : Account) :
  preserves (nonce_inv n0) (main_body admin).
Proof.
  unfold main_body, native_transfer, setup_asset, create_if_absent, on_asset_error, banner.
  preserves_tac.
Qed.

(** C6: in every run of
    [full-setup-sudo.ts] from a world where nothing was sent, whatever
    the node answers (including rejections and aborts), every transaction
    is sent with an explicit nonce and these nonces are exactly
    [n0, n0 + 1, ...] where [n0] is the admin's next index read from the
    chain at the start: no nonce is skipped or reused, and the counter
    ends one past the last one used. *)
Theorem full_setup_nonces_consecutive (w0 : World) :
  w_sent w0 = [] ->
  nonce_inv (accountNextIndex (w_node w0) (address_of_uri ADMIN_SEED)) (snd (run w0)).
Proof.
  intros Hs. unfold run.
  destruct (catch_top_sent main w0) as [Hs1 Hn1].
  apply (nonce_inv_sent_nonce_only _ (snd (main w0)) _ (eq_sym Hs1) (eq_sym Hn1)).
  set (admin := address_of_uri ADMIN_SEED).
  destruct (connect_world admin w0) as (Hc & Hcs & Hcn & _).
  assert (Hinv : nonce_inv (accountNextIndex (w_node w0) admin)
                   (snd (init_nonce admin (snd (connect admin w0))))).
  { rewrite <- Hcn. apply init_nonce_inv. by rewrite Hcs. }
  pose proof (main_body_nonce_inv _ admin _ Hinv) as Hb.
  unfold main, bind at 1. fold admin.
  destruct (connect admin w0) as [o w1] eqn:E. simpl in Hc; subst o.
  exact Hb.
Qed.

End WithNode.
End FullSetupProofs.

Module FullSetupSpec.
Import FullSetup.

(** The calls the specification (section 4.1, step 2) lists for one
    asset, given whether it already exists. *)
Definition asset_calls (admin : Account) (a : AssetConfig.t) (present : bool) : list Call :=
  let id := AssetConfig.id a in
  let d := AssetConfig.decimals a in
  (if present then []
   else [AssetsCreate id admin 1;
         AssetsSetMetadata id (AssetConfig.name a) (AssetConfig.symbol a) d])
  ++ [AssetsMint id admin (MINT_TOKENS * 10 ^ d);
      AssetsTransfer id TARGET (TRANSFER_TOKENS * 10 ^ d);
      LendingCreatePool (AssetConfig.poolId a) (WithId id) (POOL_TOKENS * 10 ^ d);
      SudoSudo (LendingActivatePool (WithId id))].

Section WithNode.
Context `{Node}.

Lemma safe_token_amounts (d : Z) :
  0 <= d < 2 ^ 53 ->
  toChainUnits MINT_TOKENS d = Some (MINT_TOKENS * 10 ^ d)
  /\ toChainUnits TRANSFER_TOKENS d = Some (TRANSFER_TOKENS * 10 ^ d)
  /\ toChainUnits POOL_TOKENS d = Some (POOL_TOKENS * 10 ^ d).
Proof. intros Hd. repeat split; apply toChainUnits_safe; [by vm_compute | done ..]. Qed.

(** C8: against any node that includes
    every transaction with a successful dispatch, the body of the loop
    for one asset returns normally and sends exactly the calls of the
    specification in order: [create] and [setMetadata] only when the
    existence query found no asset, then [mint] of 1,000,000 units,
    [transfer] of 10,000 units to the target, [createLendingPool] of
    10,000 units and [sudo(activateLendingPool)], with the amounts
    converted exactly at the asset's decimals. *)
Theorem setup_asset_sends_spec_calls (admin : Account) (a : AssetConfig.t) (w : World) :
  (forall s n c, includes_ok s admin (Some n) c) ->
  (forall c, encodable c = true) ->
  0 <= AssetConfig.decimals a < 2 ^ 53 ->
  wp (setup_asset admin a)
    (fun _ w' => map snd (w_sent w')
                 = map snd (w_sent w)
                   ++ asset_calls admin a (query_asset (w_node w) (AssetConfig.id a))) w.
Proof.
  intros Hinc Henc Hd.
  destruct (safe_token_amounts _ Hd) as (Hm & Ht & Hp).
  unfold setup_asset, create_if_absent.
  wp_run ltac:(first [apply Hinc | apply Henc | eassumption]);
    sent_unfold; destruct (query_asset _ _); try discriminate;
    rewrite !map_app; simpl; by rewrite <- !app_assoc.
Qed.

End WithNode.
End FullSetupSpec.

Module FullSetupRuns.
Import FullSetup FullSetupProofs FullSetupSpec Ledger.

Section WithNode.
Context `{Node}.

Lemma for_each_try_break_no_throw {A} (body : A -> M unit)
    (handler : A -> JsError -> M unit) (l : list A) (w : World) (e : JsError) :
  (forall a e w, fst (handler a e w) = Done tt) ->
  fst (for_each_try_break body handler l w) <> Threw e.
Proof.
  intros Hh. revert w. induction l as [|a l IH]; intros w; simpl; [done|].
  destruct (body a w) as [[] w']; simpl; [apply IH | rewrite Hh | ]; done.
Qed.

Lemma native_transfer_frame (admin : Account) (w : World) :
  w_connected (snd (native_transfer admin w)) = w_connected w
  /\ (length (w_sent (snd (native_transfer admin w))) <= length (w_sent w) + 1)%nat.
Proof.
  unfold native_transfer, bind, build. cbn -[send_with_nonce].
  destruct (encodable _); cbn -[send_with_nonce]; [|split; [done | lia]].
  match goal with |- context [send_with_nonce ?cb ?a ?c ?w'] =>
    destruct (send_with_nonce_sent cb a c w') as [Hs Hc] end.
  rewrite Hs, Hc, length_app. simpl. split; [done | lia].
Qed.

(** C9: every run of [full-setup-sudo.ts] either
    waits forever on a promise that never settles, or returns normally:
    no exception escapes [main().catch].  When it returns, either the
    closing banner "All assets and lending pools created successfully!"
    was printed last and the connection closed, whatever happened to the
    assets (the [catch] only logs and [break]s), or the native transfer
    failed: then the error was printed last, at most that one transaction
    was sent, and the connection is left open. *)
Theorem full_setup_outcomes (w0 : World) :
  match run w0 with
  | (Blocked, _) => True
  | (Threw _, _) => False
  | (Done _, w) =>
      (w_connected w = false /\ ends_with (w_out w) banner_lines)
      \/ (w_connected w = w_connected w0
          /\ (exists e, ends_with (w_out w) [ErrorWith "" e])
          /\ (length (w_sent w) <= length (w_sent w0) + 1)%nat)
  end.
Proof.
  unfold run, catch_top, main. set (admin := address_of_uri ADMIN_SEED).
  destruct (connect_world admin w0) as (Hc & Hs1 & _ & Hcn1).
  unfold bind at 1. destruct (connect admin w0) as [o1 w1]. simpl in Hc, Hs1, Hcn1. subst o1.
  unfold bind at 1, init_nonce. cbn -[main_body].
  set (w2 := set_nonce _ w1).
  destruct (native_transfer_frame admin w2) as [Hc3 Hl3].
  unfold main_body, bind at 1.
  destruct (native_transfer admin w2) as [[|e|] w3]; simpl in Hc3, Hl3.
  - unfold bind at 1.
    pose proof (fun e => for_each_try_break_no_throw (setup_asset admin)
                  on_asset_error full_setup_assets w3 e (fun _ _ _ => eq_refl)) as Hno.
    destruct (for_each_try_break (setup_asset admin) on_asset_error full_setup_assets w3)
      as [[|e'|] w4].
    + left. split; [done|]. simpl. exists (w_out w4). by rewrite <- !app_assoc.
    + exfalso. by apply (Hno e').
    + exact I.
  - right. simpl. split; [congruence|]. split; [eexists; apply ends_with_app|].
    rewrite <- Hs1. exact Hl3.
  - exact I.
Qed.

End WithNode.

(** The full setup on a fresh development chain. *)
Definition fresh_run := @run LedgerNode (start (genesis [])).

Lemma full_setup_nonces_consecutive_witness :
  w_sent (start (genesis [])) = []
  /\ nonce_inv 0 (snd fresh_run).
Proof.
  split; [reflexivity|].
  exact (@full_setup_nonces_consecutive LedgerNode (start (genesis [])) eq_refl).
Defined.

Definition usd_config : AssetConfig.t := AssetConfig.mk 1 "USD" "USD" 1 1001.

Lemma setup_asset_sends_spec_calls_witness :
  @wp AcceptNode unit (@setup_asset AcceptNode ALICE usd_config)
    (fun _ w' => map snd (w_sent w')
                 = map snd (@w_sent AcceptNode (@mkWorld AcceptNode 0 [] [] 0 true))
                   ++ asset_calls ALICE usd_config false)
    (@mkWorld AcceptNode 0 [] [] 0 true).
Proof.
  apply (@setup_asset_sends_spec_calls AcceptNode ALICE usd_config);
    [intros s n c; exact (accept_node_includes_ok _ s ALICE (Some n) c)
    | intros c; reflexivity | vm_compute; split; congruence].
Defined.

End FullSetupRuns.

Module FullSetupLedger.
Import FullSetup FullSetupProofs Ledger.

Lemma admin_is_alice : @address_of_uri LedgerNode ADMIN_SEED = ALICE.
Proof. reflexivity. Qed.

(** After the counter is read, the body keeps it in step with the chain
    and the nonces sent consecutive, unless it blocks. *)
Lemma main_body_chain_nonce (n0 : Z) :
  @preserves_live LedgerNode unit (fun w => nonce_sync ALICE w /\ nonce_inv n0 w)
    (@main_body LedgerNode ALICE).
Proof.
  unfold main_body, native_transfer, setup_asset, create_if_absent, on_asset_error, banner.
  live_tac ltac:(apply ledger_send_with_nonce_sync).
Qed.

(** C7: on the reference ledger, from any
    chain state and whatever the network does with each submission, a
    run of [full-setup-sudo.ts] that does not wait forever ends with its
    counter equal to the chain's next nonce for the admin, and the
    chain's nonce has advanced by exactly the number of transactions
    sent: every transaction passed the pool's nonce check (none was
    [Future] or [Invalid]) and was included, failed dispatches
    included. *)
Theorem full_setup_chain_nonces (s : LState) :
  fst (@run LedgerNode (start s)) <> Blocked ->
  w_nonce (snd (@run LedgerNode (start s))) = nonce_of (w_node (snd (@run LedgerNode (start s)))) ALICE
  /\ nonce_of (w_node (snd (@run LedgerNode (start s)))) ALICE
     = nonce_of s ALICE + Z.of_nat (length (w_sent (snd (@run LedgerNode (start s))))).
Proof.
  set (P := fun w => nonce_sync ALICE w /\ nonce_inv (nonce_of s ALICE) w).
  enough (HP : fst (@run LedgerNode (start s)) <> Blocked -> P (snd (@run LedgerNode (start s)))).
  { intros Hnb. destruct (HP Hnb) as [Hsync [_ Hlen]]. unfold nonce_sync in Hsync. lia. }
  assert (Hmain : fst (main (start s)) <> Blocked -> P (snd (main (start s)))).
  { unfold main. rewrite admin_is_alice. unfold bind.
    destruct (connect_world ALICE (start s)) as (Hc & Hcs & Hcn & _).
    destruct (connect ALICE (start s)) as [o w1] eqn:E. simpl in Hc, Hcs, Hcn. subst o.
    unfold init_nonce. cbv beta iota.
    apply main_body_chain_nonce. split.
    - unfold nonce_sync. simpl. by rewrite Hcn.
    - rewrite <- Hcn. exact (@init_nonce_inv LedgerNode ALICE w1 Hcs). }
  unfold run, catch_top.
  destruct (main (start s)) as [[|e|] w'] eqn:E; simpl in *; intros Hnb;
    [apply Hmain; discriminate | | done].
  destruct (Hmain ltac:(discriminate)) as [H1 H2]. by split.
Qed.

Lemma full_setup_chain_nonces_witness :
  fst (@run LedgerNode (start (genesis [NoFinality]))) <> Blocked
  /\ w_nonce (snd (@run LedgerNode (start (genesis [NoFinality]))))
     = nonce_of (w_node (snd (@run LedgerNode (start (genesis [NoFinality]))))) ALICE
  /\ nonce_of (w_node (snd (@run LedgerNode (start (genesis [NoFinality]))))) ALICE
     = nonce_of (genesis [NoFinality]) ALICE
       + Z.of_nat (length (w_sent (snd (@run LedgerNode (start (genesis [NoFinality])))))).
Proof.
  assert (H : fst (@run LedgerNode (start (genesis [NoFinality]))) <> Blocked)
    by (vm_compute; discriminate).
  split; [exact H | exact (full_setup_chain_nonces _ H)].
Defined.

End FullSetupLedger.
