(* ===== verification/CreateLendingPool.v ===== *)
(** * CreateLendingPool: [src/create-lending-pool.ts]

    A native transfer to [TARGET], then one [createLendingPool] per asset
    of [AssetInfo] table, each resolved on [Finalized] by the callback
    [on_status_finalized]; no transaction passes an explicit nonce, and
    no asset's existence is queried.  The loop [break]s on the first
    error, and the closing line follows the loop in every case. *)

From S2P Require Import Prelude Units Submit Script Ledger.

Module CreateLendingPool.

Definition WS_ENDPOINT : string := "ws://127.0.0.1:9944".
Definition ADMIN : Account := "5GrwvaEF5zXb26Fz9rcQpDWS57CtERHpNehXCPcNoHGKutQY".
Definition TARGET : Account := "5EYCAe5hjcu8UT2sh5HhPXrLgSbTtxpeQZCKAjvgSJPmc7LA".

(** [new BN('1000000000000000')]. *)
Definition transferAmount : Z := 1000000000000000.

Definition site_native : Site :=
  mkSite "Native transfer failed: " (fun h => "Native transfer in block " +++ h).
Definition site_pool (poolId : Z) : Site :=
  mkSite "Pool failed: " (fun h => "Pool " +++ pretty poolId +++ " in block " +++ h).

Section WithNode.
Context `{Node}.

(** Lines 57-78: the body of the [try] block for one asset. *)
Definition create_pool (alice : Account) (a : AssetInfo.t) : M unit :=
  log ("Creating lending pool for " +++ AssetInfo.name a +++ " (asset "
       +++ pretty (AssetInfo.assetId a) +++ ") ...") ;;
  amount <- bn (pool_amount (AssetInfo.decimals a)) ;;
  txPool <- build (LendingCreatePool (AssetInfo.poolId a) (WithId (AssetInfo.assetId a)) amount) ;;
  send_and_await (on_status_finalized (site_pool (AssetInfo.poolId a))) alice None txPool.

(** Lines 75-78: [catch (err) { console.error(...); break; }]. *)
Definition on_pool_error (a : AssetInfo.t) (err : JsError) : M unit :=
  log_error ("Error for " +++ AssetInfo.name a +++ ":") err.

(** [async function main()], lines 25-83. *)
Definition main : M unit :=
  log ("Connecting to node: " +++ WS_ENDPOINT) ;;
  let alice := address_of_uri "//Alice" in
  chain <- rpc_chain ;;
  log ("Connected to chain: " +++ chain) ;;
  log ("Using admin: " +++ alice) ;;
  log ("Transferring native balance to " +++ TARGET +++ " ...") ;;
  txBalance <- build (BalancesTransferKeepAlive TARGET transferAmount) ;;
  send_and_await (on_status_finalized site_native) alice None txBalance ;;
  for_each_try_break (create_pool alice) on_pool_error lending_pool_assets ;;
  log "All lending pools created successfully." ;;
  disconnect.

(** [main().catch(console.error)], line 85. *)
Definition run : M unit := catch_top main.

End WithNode.
End CreateLendingPool.

Module CreateLendingPoolProofs.
Import CreateLendingPool.

(** The pool the specification asks for, for one table entry. *)
Definition pool_call (a : AssetInfo.t) : Call :=
  LendingCreatePool (AssetInfo.poolId a) (WithId (AssetInfo.assetId a))
    (POOL_TOKENS * 10 ^ AssetInfo.decimals a).

Lemma lending_pool_decimals :
  Forall (fun a => 0 <= AssetInfo.decimals a < 2 ^ 53) lending_pool_assets.
Proof. repeat constructor; simpl; lia. Qed.

Lemma pool_amount_exact (d : Z) :
  0 <= d < 2 ^ 53 -> pool_amount d = Some (POOL_TOKENS * 10 ^ d).
Proof. intros Hd. rewrite pool_amount_toChainUnits. apply toChainUnits_safe; [by vm_compute | done]. Qed.

Section WithNode.
Context `{Node}.

(** C10: against a node that finalizes every
    transaction with a successful dispatch, [create-lending-pool.ts]
    returns normally after sending the native transfer and then one
    [createLendingPool] per table entry, in the table's order, with
    [10_000 * 10^decimals] units, and closes the connection. *)
Theorem create_lending_pool_sends (w0 : World) :
  (forall s n c, finalizes_ok s (address_of_uri "//Alice") n c) ->
  (forall c, encodable c = true) ->
  wp run (fun _ w => map snd (w_sent w)
                     = map snd (w_sent w0)
                       ++ BalancesTransferKeepAlive TARGET transferAmount
                          :: map pool_call lending_pool_assets
                     /\ w_connected w = false) w0.
Proof.
  intros Hfin Henc. apply wp_catch_top. unfold main.
  wp_run ltac:(first [apply Hfin | apply Henc]).
  eapply wp_mono.
  - apply (wp_for_each_try_break_sent _ _ (fun a => [pool_call a])).
    intros a w Ha. unfold create_pool.
    pose proof (proj1 (List.Forall_forall _ _) lending_pool_decimals a Ha) as Hd.
    wp_run ltac:(first [apply Hfin | apply Henc | apply pool_amount_exact; exact Hd]).
    sent_unfold. by rewrite map_app.
  - intros ? wl Hwl. wp_run ltac:(first [apply Hfin | apply Henc]).
    simpl. split; [|done]. rewrite Hwl. sent_unfold.
    rewrite map_app, <- app_assoc. reflexivity.
Qed.

(** C11: against any node on which the
    native transfer and the pools before entry [a] of the table finalize
    successfully and the pool of [a] carries a dispatch error [e],
    [create-lending-pool.ts] sends the native transfer and the pools up
    to [a], none after it ([break]), prints the error for [a] and then
    still prints "All lending pools created successfully." last, and
    closes the connection: the closing line does not depend on the loop
    having completed. *)
Theorem create_lending_pool_pool_fails (pre post : list AssetInfo.t) (a : AssetInfo.t)
    (e : DispatchError) (w0 : World) :
  lending_pool_assets = pre ++ a :: post ->
  (forall s n, finalizes_ok s (address_of_uri "//Alice") n
                 (BalancesTransferKeepAlive TARGET transferAmount)) ->
  (forall s n b, In b pre -> finalizes_ok s (address_of_uri "//Alice") n (pool_call b)) ->
  (forall s n, fails_fin s (address_of_uri "//Alice") n (pool_call a) e) ->
  (forall c, encodable c = true) ->
  wp run (fun _ w => map snd (w_sent w)
                     = map snd (w_sent w0)
                       ++ BalancesTransferKeepAlive TARGET transferAmount
                          :: map pool_call pre ++ [pool_call a]
                     /\ ends_with (w_out w)
                          [ErrorWith ("Error for " +++ AssetInfo.name a +++ ":") (ErrDispatch e);
                           Line (ConsoleLog "All lending pools created successfully.")]
                     /\ w_connected w = false) w0.
Proof.
  intros Htab Hnat Hpre Hfail Henc.
  assert (Hdec : forall b, In b (pre ++ a :: post) -> 0 <= AssetInfo.decimals b < 2 ^ 53)
    by (rewrite <- Htab; exact (proj1 (List.Forall_forall _ _) lending_pool_decimals)).
  apply wp_catch_top. unfold main.
  wp_run ltac:(first [apply Hnat | apply Henc]).
  rewrite Htab.
  apply (wp_for_each_try_break_fail_at _ (fun b => [pool_call b]) _ pre post a [pool_call a] (ErrDispatch e)).
  - apply List.Forall_forall. intros b Hb w. unfold create_pool.
    wp_run ltac:(first [apply Hpre; exact Hb | apply Henc
                       | apply pool_amount_exact, Hdec, in_or_app; by left]).
    sent_unfold. split; [by rewrite map_app | done].
  - intros w. unfold create_pool.
    wpx_run ltac:(first [exact (Hfail _ _) | apply Henc
                        | apply pool_amount_exact, Hdec, in_or_app; right; by left]).
    sent_unfold. split; [done|]. split; [by rewrite map_app | done].
  - intros wh Hs Hc. unfold on_pool_error. wp_run idtac. simpl.
    split; [|split; [rewrite <- app_assoc; apply ends_with_app | done]].
    rewrite Hs, concat_map_singleton. sent_unfold. by rewrite map_app, <- app_assoc.
Qed.

End WithNode.
End CreateLendingPoolProofs.

Module CreateLendingPoolRuns.
Import CreateLendingPool CreateLendingPoolProofs Ledger.

Lemma create_lending_pool_sends_witness :
  @wp AcceptNode unit (@run AcceptNode)
    (fun _ w => map snd (w_sent w)
                = map snd (@w_sent AcceptNode (@mkWorld AcceptNode 0 [] [] 0 true))
                  ++ BalancesTransferKeepAlive TARGET transferAmount
                     :: map pool_call lending_pool_assets
                /\ w_connected w = false)
    (@mkWorld AcceptNode 0 [] [] 0 true).
Proof.
  apply (@create_lending_pool_sends AcceptNode);
    [intros s n c; exact (accept_node_finalizes_ok _ s _ n c) | intros c; reflexivity].
Defined.

(** A node on which the pool of the second entry (Tether) fails with
    [lending.PoolAlreadyExists]. *)
Definition usd_info : AssetInfo.t := AssetInfo.mk "USD" 1 1 1001.
Definition tether_info : AssetInfo.t := AssetInfo.mk "Tether" 2 1 1002.
Definition pool_exists : DispatchError := DEModule (mkModuleError IDX_LENDING 1).
Definition fail_tether (c : Call) : option DispatchError :=
  if decide (c = pool_call tether_info) then Some pool_exists else None.
Definition TetherFails : Node := TestNode (fun _ => false) fail_tether.

Lemma create_lending_pool_pool_fails_witness :
  @wp TetherFails unit (@run TetherFails)
    (fun _ w => map snd (w_sent w)
                = map snd (@w_sent TetherFails (@mkWorld TetherFails 0 [] [] 0 true))
                  ++ BalancesTransferKeepAlive TARGET transferAmount
                     :: map pool_call [usd_info] ++ [pool_call tether_info]
                /\ ends_with (w_out w)
                     [ErrorWith ("Error for " +++ AssetInfo.name tether_info +++ ":")
                        (ErrDispatch pool_exists);
                      Line (ConsoleLog "All lending pools created successfully.")]
                /\ w_connected w = false)
    (@mkWorld TetherFails 0 [] [] 0 true).
Proof.
  apply (@create_lending_pool_pool_fails TetherFails [usd_info] (tl (tl lending_pool_assets))
           tether_info pool_exists (@mkWorld TetherFails 0 [] [] 0 true)).
  - reflexivity.
  - intros s n. apply test_node_finalizes_ok. by vm_compute.
  - intros s n b [<- | []]. apply test_node_finalizes_ok. by vm_compute.
  - intros s n. apply test_node_fails_fin. by vm_compute.
  - intros c. reflexivity.
Defined.

End CreateLendingPoolRuns.
