(* ===== verification/CreateAssets.v ===== *)
(** * CreateAssets: [src/lending-pool/create-assets.ts]

    For each asset of its table: query it, skip it ([continue]) when it
    exists, otherwise create it and set its metadata, each transaction
    resolved on [InBlock] without an explicit nonce, then read the
    metadata back.  There is no [try]: an error leaves the loop and
    [main], reaches [main().catch], and the connection is not closed. *)

From S2P Require Import Prelude Units Submit Script Ledger.

Module CreateAssets.

Definition RPC : string := "ws://127.0.0.1:9944".
Definition ADMIN_SEED : string := "//Alice".

Definition site_create (id : Z) : Site :=
  mkSite "" (fun h => "Created asset " +++ pretty id +++ " in block " +++ h).
Definition site_metadata (nm : string) : Site :=
  mkSite "" (fun h => "Metadata set for " +++ nm +++ " in block " +++ h).

Section WithNode.
Context `{Node}.

(** Lines 25-82: the body of the loop for one asset. *)
Definition create_asset (admin : Account) (a : AssetLit.t) : M unit :=
  let id := AssetLit.id a in
  log ("Creating asset " +++ AssetLit.name a +++ " (id=" +++ pretty id +++ ")") ;;
  details <- q_asset id ;;
  if details then log ("Asset " +++ pretty id +++ " already exists. Skipping creation.")
  else
    createTx <- build (AssetsCreate id admin 1) ;;
    send_and_await (on_status_inblock (site_create id)) admin None createTx ;;
    metaTx <- build (AssetsSetMetadata id (AssetLit.name a) (AssetLit.symbol a)
                       (AssetLit.decimals a)) ;;
    send_and_await (on_status_inblock (site_metadata (AssetLit.name a))) admin None metaTx ;;
    meta <- q_metadata id ;;
    log ("Metadata confirmed: " +++ show_metadata meta).

(** [async function main()], lines 15-86. *)
Definition main : M unit :=
  log ("Connecting to node: " +++ RPC) ;;
  let admin := address_of_uri ADMIN_SEED in
  chain <- rpc_chain ;;
  log ("Connected to chain: " +++ chain) ;;
  log ("Using admin: " +++ admin) ;;
  for_each (create_asset admin) create_assets_assets ;;
  log "All assets created successfully!" ;;
  disconnect.

(** [main().catch(console.error)], line 88. *)
Definition run : M unit := catch_top main.

End WithNode.
End CreateAssets.

Module CreateAssetsProofs.
Import CreateAssets.

(** The transactions the script sends for one asset, when [present]
    says which assets exist. *)
Definition create_calls (admin : Account) (present : Z -> bool) (a : AssetLit.t) : list Call :=
  if present (AssetLit.id a) then []
  else [AssetsCreate (AssetLit.id a) admin 1;
        AssetsSetMetadata (AssetLit.id a) (AssetLit.name a) (AssetLit.symbol a)
          (AssetLit.decimals a)].

Section WithNode.
Context `{Node}.

(** C12: against any node, when every
    asset of the table already exists, [create-assets.ts] returns
    normally without sending any transaction or changing the node, prints
    "All assets created successfully!" last and closes the connection:
    the query before each creation makes a rerun harmless. *)
Theorem create_assets_skips_existing (w0 : World) :
  (forall a, In a create_assets_assets -> query_asset (w_node w0) (AssetLit.id a) = true) ->
  wp run (fun _ w => w_sent w = w_sent w0 /\ w_node w = w_node w0
                     /\ w_connected w = false
                     /\ ends_with (w_out w) [Line (ConsoleLog "All assets created successfully!")])
    w0.
Proof.
  intros Hex. apply wp_catch_top. unfold main. wp_run idtac.
  eapply wp_mono.
  - apply (wp_for_each _ (fun rest w => (forall a, In a rest ->
                                           query_asset (w_node w0) (AssetLit.id a) = true)
                                        /\ w_sent w = w_sent w0 /\ w_node w = w_node w0)).
    + split; [exact Hex | done].
    + intros a rest w (Hq & Hs & Hn). unfold create_asset. wp_run idtac.
      { split; [intros a' Ha'; apply Hq; by right | done]. }
      all: exfalso; match goal with H : query_asset _ _ = false |- _ =>
          simpl in H; rewrite Hn, (Hq a (or_introl eq_refl)) in H; discriminate end.
  - intros ? wl (_ & Hs & Hn). wp_run idtac. simpl. split; [done|]. split; [done|].
    split; [done|]. apply ends_with_app.
Qed.

(** C13: against any node on which the
    assets that exist are those [present] names, the transactions for the
    entries before [a] succeed, [a] does not exist and its creation is
    included with a dispatch error [e], [create-assets.ts] sends the
    transactions up to [a]'s creation and none after it; the rejection is
    not caught in the loop: [main().catch] prints it last, the run
    returns, and the connection is never closed. *)
Theorem create_assets_failure_escapes (present : Z -> bool) (pre post : list AssetLit.t)
    (a : AssetLit.t) (e : DispatchError) (w0 : World) :
  create_assets_assets = pre ++ a :: post ->
  (forall s b, In b create_assets_assets -> query_asset s (AssetLit.id b) = present (AssetLit.id b)) ->
  (forall s n b c, In b pre -> In c (create_calls (address_of_uri ADMIN_SEED) present b) ->
                   includes_ok s (address_of_uri ADMIN_SEED) n c) ->
  present (AssetLit.id a) = false ->
  (forall s n, includes_err s (address_of_uri ADMIN_SEED) n
                 (AssetsCreate (AssetLit.id a) (address_of_uri ADMIN_SEED) 1) e) ->
  (forall c, encodable c = true) ->
  wp run (fun _ w => map snd (w_sent w)
                     = map snd (w_sent w0)
                       ++ concat (map (create_calls (address_of_uri ADMIN_SEED) present) pre)
                       ++ [AssetsCreate (AssetLit.id a) (address_of_uri ADMIN_SEED) 1]
                     /\ ends_with (w_out w) [ErrorWith "" (ErrDispatch e)]
                     /\ w_connected w = w_connected w0) w0.
Proof.
  intros Htab Hpres Hpre Habs Hfail Henc.
  assert (Hin : forall b, In b (pre ++ a :: post) -> In b create_assets_assets)
    by (rewrite Htab; done).
  apply wp_catch_top_wpx. unfold main. wpx_run ltac:(apply Henc). rewrite Htab.
  apply (wpx_for_each_fail_at _ (fun b => create_calls (address_of_uri ADMIN_SEED) present b)
           pre post a [AssetsCreate (AssetLit.id a) (address_of_uri ADMIN_SEED) 1]
           (ErrDispatch e)).
  - apply List.Forall_forall. intros b Hb w.
    pose proof (Hpres (w_node w) b (Hin b (in_or_app _ _ _ (or_introl Hb)))) as Hq.
    unfold create_asset, create_calls.
    destruct (present (AssetLit.id b)) eqn:Hp;
      wp_run ltac:(first [eapply Hpre; [exact Hb | unfold create_calls; rewrite Hp; simpl; tauto]
                         | apply Henc]);
      simpl in *; rewrite ?Hq in *; try discriminate.
    + sent_unfold. by rewrite app_nil_r.
    + sent_unfold. by rewrite !map_app, <- app_assoc.
  - intros w. pose proof (Hpres (w_node w) a (Hin a (in_or_app pre (a :: post) a (or_intror (or_introl eq_refl)))))
      as Hq.
    unfold create_asset. wpx_run ltac:(first [exact (Hfail _ _) | apply Henc]);
      simpl in *; rewrite ?Hq, ?Habs in *; try discriminate.
    sent_unfold. split; [done|]. split; [by rewrite map_app | done].
  - intros wh Hs Hc. simpl. split; [|split; [apply ends_with_app | done]].
    rewrite Hs. by sent_unfold.
Qed.

End WithNode.
End CreateAssetsProofs.

Module CreateAssetsRuns.
Import CreateAssets CreateAssetsProofs Ledger.

(** [create-assets.ts] on a fresh development chain. *)
Definition fresh_run := @run LedgerNode (start (genesis [])).

(** The script run again on the chain the first run left. *)
Definition rerun_world : @World LedgerNode := start (w_node (snd fresh_run)).

Lemma create_assets_skips_existing_witness :
  (forall a, In a create_assets_assets ->
             @query_asset LedgerNode (w_node rerun_world) (AssetLit.id a) = true)
  /\ @wp LedgerNode unit (@run LedgerNode)
       (fun _ w => w_sent w = w_sent rerun_world /\ w_node w = w_node rerun_world
                   /\ w_connected w = false
                   /\ ends_with (w_out w) [Line (ConsoleLog "All assets created successfully!")])
       rerun_world.
Proof.
  assert (Hex : forall a, In a create_assets_assets ->
                @query_asset LedgerNode (w_node rerun_world) (AssetLit.id a) = true).
  { intros a Ha. repeat destruct Ha as [<- | Ha]; [vm_compute; reflexivity ..| done]. }
  split; [exact Hex|].
  exact (@create_assets_skips_existing LedgerNode rerun_world Hex).
Defined.

(** A node on which SOL (101) exists and creating ETH (102) fails with
    [assets.InUse]. *)
Definition sol_only (id : Z) : bool := bool_decide (id = 101).
Definition eth_lit : AssetLit.t := AssetLit.mk 102 "Ethereum" "ETH" 18.
Definition in_use : DispatchError := DEModule (mkModuleError IDX_ASSETS 5).
Definition fail_eth (c : Call) : option DispatchError :=
  if decide (c = AssetsCreate 102 ALICE 1) then Some in_use else None.
Definition EthFails : Node := TestNode sol_only fail_eth.

Lemma create_assets_failure_escapes_witness :
  @wp EthFails unit (@run EthFails)
    (fun _ w => map snd (w_sent w)
                = map snd (@w_sent EthFails (@mkWorld EthFails 0 [] [] 0 true))
                  ++ concat (map (create_calls ALICE sol_only) [AssetLit.mk 101 "Solana" "SOL" 9])
                  ++ [AssetsCreate 102 ALICE 1]
                /\ ends_with (w_out w) [ErrorWith "" (ErrDispatch in_use)]
                /\ w_connected w = @w_connected EthFails (@mkWorld EthFails 0 [] [] 0 true))
    (@mkWorld EthFails 0 [] [] 0 true).
Proof.
  apply (@create_assets_failure_escapes EthFails sol_only [AssetLit.mk 101 "Solana" "SOL" 9]
           (tl (tl create_assets_assets)) eth_lit in_use (@mkWorld EthFails 0 [] [] 0 true)).
  - reflexivity.
  - intros s b _. reflexivity.
  - intros s n b c [<- | []] Hc. vm_compute in Hc. done.
  - reflexivity.
  - intros s n. apply test_node_includes_err. by vm_compute.
  - intros c. reflexivity.
Defined.

End CreateAssetsRuns.
