(* ===== verification/MintTransfer.v ===== *)
(** * MintTransfer: [src/lending-pool/mint-transfer.ts]

    For each asset of its table that exists: mint 1,000,000 units to the
    admin, transfer 10,000 units to [RECEIVER], read the receiver's
    balance.  The script has its own copy of [toChainUnits].  Its
    [RECEIVER] is the address of the development key [//Alice], the
    admin itself.  Proved: the calls sent against a node that includes
    everything, a failing transaction escaping the loop with the
    connection left open, and on the reference ledger, from any chain
    state, that the receiver gains the whole mint. *)

From stdpp Require Import gmap.
From S2P Require Import Prelude Units Submit Script Ledger.

Module MintTransfer.

Definition RPC : string := "ws://127.0.0.1:9944".
Definition ADMIN_SEED : string := "//Alice".
Definition RECEIVER : Account := "5GrwvaEF5zXb26Fz9rcQpDWS57CtERHpNehXCPcNoHGKutQY".

(** Lines 19-21: the script's own [toChainUnits]. *)
Definition toChainUnits (amount decimals : Z) : option Z :=
  match bn_of_number amount with
  | None => None
  | Some a =>
      match bn_of_number 10 with
      | None => None
      | Some ten =>
          match bn_of_number decimals with
          | None => None
          | Some d => Some (a * bn_pow ten d)
          end
      end
  end.

Definition site_mint (amount : Z) (symbol : string) : Site :=
  mkSite "Mint failed: " (fun _ => "Minted " +++ pretty amount +++ " " +++ symbol +++ " to admin").
Definition site_transfer (amount : Z) (symbol : string) : Site :=
  mkSite "Transfer failed: "
    (fun _ => "Transferred " +++ pretty amount +++ " " +++ symbol +++ " to Alice").

Section WithNode.
Context `{Node}.

(** Lines 35-89: the body of the loop for one asset. *)
Definition process_asset (admin : Account) (a : AssetLit.t) : M unit :=
  let id := AssetLit.id a in
  let symbol := AssetLit.symbol a in
  log ("Processing " +++ symbol +++ " (id=" +++ pretty id +++ ")") ;;
  assetDetails <- q_asset id ;;
  if negb assetDetails then
    warn ("Asset " +++ pretty id +++ " (" +++ symbol +++ ") does not exist! Skipping.")
  else
    mintAmount <- bn (toChainUnits MINT_TOKENS (AssetLit.decimals a)) ;;
    mintTx <- build (AssetsMint id admin mintAmount) ;;
    send_and_await (on_status_inblock (site_mint mintAmount symbol)) admin None mintTx ;;
    transferAmount <- bn (toChainUnits TRANSFER_TOKENS (AssetLit.decimals a)) ;;
    transferTx <- build (AssetsTransfer id RECEIVER transferAmount) ;;
    send_and_await (on_status_inblock (site_transfer transferAmount symbol))
      admin None transferTx ;;
    balance <- q_account id RECEIVER ;;
    log ("Alice's " +++ symbol +++ " balance: "
         +++ match balance with None => "null" | Some b => pretty b end).

(** [async function main()], lines 23-93. *)
Definition main : M unit :=
  log ("Connecting to node: " +++ RPC) ;;
  let admin := address_of_uri ADMIN_SEED in
  chain <- rpc_chain ;;
  log ("Connected to chain: " +++ chain) ;;
  log ("Admin: " +++ admin) ;;
  log ("Receiver: " +++ RECEIVER) ;;
  for_each (process_asset admin) mint_transfer_assets ;;
  log "All assets minted and transferred successfully!" ;;
  disconnect.

(** [main().catch(console.error)], line 95. *)
Definition run : M unit := catch_top main.

End WithNode.
End MintTransfer.

Module MintTransferProofs.
Import MintTransfer.

(** The script's copy of [toChainUnits] is the function of [Units]. *)
Lemma toChainUnits_copy (amount decimals : Z) :
  toChainUnits amount decimals = Units.toChainUnits amount decimals.
Proof. reflexivity. Qed.

Lemma mint_transfer_decimals :
  Forall (fun a => 0 <= AssetLit.decimals a < 2 ^ 53) mint_transfer_assets.
Proof. repeat constructor; simpl; lia. Qed.

Lemma toChainUnits_table (amount : Z) (a : AssetLit.t) :
  Z.abs amount < 2 ^ 53 -> In a mint_transfer_assets ->
  toChainUnits amount (AssetLit.decimals a) = Some (amount * 10 ^ AssetLit.decimals a).
Proof.
  intros Ham Ha. rewrite toChainUnits_copy. apply toChainUnits_safe; [done|].
  exact (proj1 (List.Forall_forall _ _) mint_transfer_decimals a Ha).
Qed.

(** The transactions the script sends for one asset, when [present]
    says which assets exist. *)
Definition mint_transfer_calls (admin : Account) (present : Z -> bool) (a : AssetLit.t)
  : list Call :=
  let id := AssetLit.id a in
  let d := AssetLit.decimals a in
  if present id
  then [AssetsMint id admin (MINT_TOKENS * 10 ^ d);
        AssetsTransfer id RECEIVER (TRANSFER_TOKENS * 10 ^ d)]
  else [].

Section WithNode.
Context `{Node}.

(** C14: against a node that includes every
    transaction with a successful dispatch and on which the assets that
    exist are those [present] names, [mint-transfer.ts] returns normally
    after sending, for each asset of its table in order, nothing (with a
    warning) when the asset does not exist, and otherwise a mint of
    [1_000_000 * 10^decimals] units to the admin followed by a transfer of
    [10_000 * 10^decimals] units to [RECEIVER]; it closes the
    connection. *)
Theorem mint_transfer_sends (present : Z -> bool) (w0 : World) :
  (forall s n c, includes_ok s (address_of_uri ADMIN_SEED) n c) ->
  (forall c, encodable c = true) ->
  (forall s a, In a mint_transfer_assets -> query_asset s (AssetLit.id a) = present (AssetLit.id a)) ->
  wp run (fun _ w => map snd (w_sent w)
                     = map snd (w_sent w0)
                       ++ concat (map (mint_transfer_calls (address_of_uri ADMIN_SEED) present)
                                    mint_transfer_assets)
                     /\ w_connected w = false) w0.
Proof.
  intros Hinc Henc Hpres. apply wp_catch_top. unfold main.
  wp_run ltac:(first [apply Hinc | apply Henc]).
  eapply wp_mono.
  - apply (wp_for_each_sent _ (mint_transfer_calls (address_of_uri ADMIN_SEED) present)).
    intros a w Ha. unfold process_asset, mint_transfer_calls.
    destruct (present (AssetLit.id a)) eqn:Hp;
      wp_run ltac:(first [apply Hinc | apply Henc | apply toChainUnits_table; [by vm_compute | exact Ha]]);
      simpl in *; rewrite ?Hpres, ?Hp in * by exact Ha; try discriminate.
    + sent_unfold. by rewrite !map_app, <- app_assoc.
    + by rewrite app_nil_r.
  - intros ? wl Hwl. wp_run ltac:(first [apply Hinc | apply Henc]).
    simpl. split; [|done]. rewrite Hwl. sent_unfold. reflexivity.
Qed.

(** C15: against any node on which the
    assets that exist are those [present] names, the transactions for the
    entries before [a] succeed, [a] exists and its mint is included with a
    dispatch error [e], [mint-transfer.ts] sends the transactions up to
    [a]'s mint and none after it; the rejection is not caught in the
    loop: [main().catch] prints it last, the run returns, and the
    connection is never closed. *)
Theorem mint_transfer_failure_escapes (present : Z -> bool) (pre post : list AssetLit.t)
    (a : AssetLit.t) (e : DispatchError) (w0 : World) :
  mint_transfer_assets = pre ++ a :: post ->
  (forall s b, In b mint_transfer_assets -> query_asset s (AssetLit.id b) = present (AssetLit.id b)) ->
  (forall s n b c, In b pre -> In c (mint_transfer_calls (address_of_uri ADMIN_SEED) present b) ->
                   includes_ok s (address_of_uri ADMIN_SEED) n c) ->
  present (AssetLit.id a) = true ->
  (forall s n, includes_err s (address_of_uri ADMIN_SEED) n
                 (AssetsMint (AssetLit.id a) (address_of_uri ADMIN_SEED)
                    (MINT_TOKENS * 10 ^ AssetLit.decimals a)) e) ->
  (forall c, encodable c = true) ->
  wp run (fun _ w => map snd (w_sent w)
                     = map snd (w_sent w0)
                       ++ concat (map (mint_transfer_calls (address_of_uri ADMIN_SEED) present) pre)
                       ++ [AssetsMint (AssetLit.id a) (address_of_uri ADMIN_SEED)
                             (MINT_TOKENS * 10 ^ AssetLit.decimals a)]
                     /\ ends_with (w_out w) [ErrorWith "" (ErrDispatch e)]
                     /\ w_connected w = w_connected w0) w0.
Proof.
  intros Htab Hpres Hpre Hex Hfail Henc.
  assert (Hin : forall b, In b (pre ++ a :: post) -> In b mint_transfer_assets)
    by (rewrite Htab; done).
  apply wp_catch_top_wpx. unfold main. wpx_run ltac:(apply Henc). rewrite Htab.
  apply (wpx_for_each_fail_at _ (mint_transfer_calls (address_of_uri ADMIN_SEED) present)
           pre post a [AssetsMint (AssetLit.id a) (address_of_uri ADMIN_SEED)
                         (MINT_TOKENS * 10 ^ AssetLit.decimals a)] (ErrDispatch e)).
  - apply List.Forall_forall. intros b Hb w.
    pose proof (Hin b (in_or_app _ _ _ (or_introl Hb))) as Hbt.
    pose proof (Hpres (w_node w) b Hbt) as Hq.
    unfold process_asset, mint_transfer_calls.
    destruct (present (AssetLit.id b)) eqn:Hp;
      wp_run ltac:(first [eapply Hpre; [exact Hb | unfold mint_transfer_calls; rewrite Hp; simpl; tauto]
                         | apply Henc | apply toChainUnits_table; [by vm_compute | exact Hbt]]);
      simpl in *; rewrite ?Hq, ?Hp in *; try discriminate.
    + sent_unfold. by rewrite !map_app, <- app_assoc.
    + by rewrite app_nil_r.
  - intros w. pose proof (Hin a (in_or_app pre (a :: post) a (or_intror (or_introl eq_refl)))) as Hat.
    pose proof (Hpres (w_node w) a Hat) as Hq.
    unfold process_asset.
    wpx_run ltac:(first [exact (Hfail _ _) | apply Henc | apply toChainUnits_table; [by vm_compute | exact Hat]]);
      simpl in *; rewrite ?Hq, ?Hex in *; try discriminate.
    sent_unfold. split; [done|]. split; [by rewrite map_app | done].
  - intros wh Hs Hc. simpl. split; [|split; [apply ends_with_app | done]].
    rewrite Hs. by sent_unfold.
Qed.

End WithNode.
End MintTransferProofs.

Module MintTransferRuns.
Import MintTransfer MintTransferProofs Ledger.

(** The assets that exist in the witness: all but [USD] (id 1). *)
Definition all_but_usd (id : Z) : bool := bool_decide (id <> 1).

Lemma mint_transfer_sends_witness :
  @wp (AcceptNodeWith all_but_usd) unit (@run (AcceptNodeWith all_but_usd))
    (fun _ w => map snd (w_sent w)
                = map snd (@w_sent (AcceptNodeWith all_but_usd)
                             (@mkWorld (AcceptNodeWith all_but_usd) 0 [] [] 0 true))
                  ++ concat (map (mint_transfer_calls ALICE all_but_usd) mint_transfer_assets)
                /\ w_connected w = false)
    (@mkWorld (AcceptNodeWith all_but_usd) 0 [] [] 0 true).
Proof.
  apply (@mint_transfer_sends (AcceptNodeWith all_but_usd) all_but_usd);
    [intros s n c; exact (accept_node_includes_ok _ s ALICE n c)
    | intros c; reflexivity | intros s a _; reflexivity].
Defined.

(** A node on which every asset but USD exists and minting SOL (101)
    fails with [assets.NoPermission]. *)
Definition sol_entry : AssetLit.t := AssetLit.mk 101 "Solana" "SOL" 9.
Definition no_permission : DispatchError := DEModule (mkModuleError IDX_ASSETS 2).
Definition fail_sol_mint (c : Call) : option DispatchError :=
  if decide (c = AssetsMint 101 ALICE (MINT_TOKENS * 10 ^ 9)) then Some no_permission else None.
Definition SolMintFails : Node := TestNode all_but_usd fail_sol_mint.

Lemma mint_transfer_failure_escapes_witness :
  @wp SolMintFails unit (@run SolMintFails)
    (fun _ w => map snd (w_sent w)
                = map snd (@w_sent SolMintFails (@mkWorld SolMintFails 0 [] [] 0 true))
                  ++ concat (map (mint_transfer_calls ALICE all_but_usd)
                               [AssetLit.mk 1 "USD" "USD" 1])
                  ++ [AssetsMint 101 ALICE (MINT_TOKENS * 10 ^ AssetLit.decimals sol_entry)]
                /\ ends_with (w_out w) [ErrorWith "" (ErrDispatch no_permission)]
                /\ w_connected w = @w_connected SolMintFails (@mkWorld SolMintFails 0 [] [] 0 true))
    (@mkWorld SolMintFails 0 [] [] 0 true).
Proof.
  apply (@mint_transfer_failure_escapes SolMintFails all_but_usd [AssetLit.mk 1 "USD" "USD" 1]
           (tl (tl mint_transfer_assets)) sol_entry no_permission
           (@mkWorld SolMintFails 0 [] [] 0 true)).
  - reflexivity.
  - intros s b _. reflexivity.
  - intros s n b c [<- | []] Hc. vm_compute in Hc. done.
  - reflexivity.
  - intros s n. apply test_node_includes_err. by vm_compute.
  - intros c. reflexivity.
Defined.

End MintTransferRuns.

Module MintTransferLedger.
Import MintTransfer MintTransferProofs Ledger.

Lemma mint_transfer_amounts (a : AssetLit.t) :
  In a mint_transfer_assets ->
  0 < TRANSFER_TOKENS * 10 ^ AssetLit.decimals a <= MINT_TOKENS * 10 ^ AssetLit.decimals a.
Proof.
  intros Ha. pose proof (proj1 (List.Forall_forall _ _) mint_transfer_decimals a Ha) as Hdec.
  cbv beta in Hdec. assert (0 < 10 ^ AssetLit.decimals a) by (apply Z.pow_pos_nonneg; lia).
  unfold TRANSFER_TOKENS, MINT_TOKENS. lia.
Qed.

Lemma mint_transfer_encodable (a : AssetLit.t) (who : Account) :
  In a mint_transfer_assets ->
  encodable_l (AssetsMint (AssetLit.id a) who (MINT_TOKENS * 10 ^ AssetLit.decimals a)) = true
  /\ encodable_l (AssetsTransfer (AssetLit.id a) who (TRANSFER_TOKENS * 10 ^ AssetLit.decimals a)) = true.
Proof. intros Ha. repeat destruct Ha as [<- | Ha]; [by vm_compute ..| done]. Qed.

(** C16: on the reference ledger, from any
    chain state where the network includes every transaction, the asset
    exists with the admin (Alice) as its admin and a minimum balance the
    transfer meets, the loop body of [mint-transfer.ts] for any asset of
    its table returns normally and the balance of [RECEIVER] grows by the
    whole mint, [1_000_000 * 10^decimals]: [RECEIVER] is the admin, so
    the transfer of [10_000 * 10^decimals] takes the tokens from and
    gives them back to the same account. *)
Theorem mint_transfer_self_transfer (a : AssetLit.t) (d : AssetDetails) (w : @World LedgerNode) :
  In a mint_transfer_assets ->
  l_fates (w_node w) = [] ->
  l_assets (w_node w) !! AssetLit.id a = Some d ->
  a_admin d = ALICE ->
  a_min d <= TRANSFER_TOKENS * 10 ^ AssetLit.decimals a ->
  0 <= bal (w_node w) (AssetLit.id a) ALICE ->
  @wp LedgerNode unit (@process_asset LedgerNode ALICE a)
    (fun _ w' => bal (w_node w') (AssetLit.id a) RECEIVER
                 = bal (w_node w) (AssetLit.id a) RECEIVER + MINT_TOKENS * 10 ^ AssetLit.decimals a)
    w.
Proof.
  intros Ha Hf Hd Hadm Hmin Hbal.
  destruct (mint_transfer_encodable a ALICE Ha) as [Hem Het].
  set (s0 := w_node w) in *. set (id := AssetLit.id a) in *.
  set (dec := AssetLit.decimals a) in *.
  pose proof (mint_transfer_amounts a Ha) as Hpos. fold dec in Hpos.
  assert (Hdm : dispatch (Signed ALICE) (AssetsMint id ALICE (MINT_TOKENS * 10 ^ dec)) s0
                = (None, set_bal s0 id ALICE (bal s0 id ALICE + MINT_TOKENS * 10 ^ dec)))
    by (apply (dispatch_mint_admin _ _ _ d); [done | done | lia]).
  destruct (ledger_submit_none s0 ALICE (AssetsMint id ALICE (MINT_TOKENS * 10 ^ dec)) Hf)
    as [Hinc1 Hs1]; [by rewrite Hdm|].
  rewrite Hdm in Hs1. simpl in Hs1.
  set (s1 := with_chain _ _ _ _) in Hs1.
  assert (Hd1 : l_assets s1 !! id = Some d) by exact Hd.
  assert (Hb1 : bal s1 id ALICE = bal s0 id ALICE + MINT_TOKENS * 10 ^ dec)
    by apply bal_set_bal.
  destruct (dispatch_transfer_self s1 id ALICE d (TRANSFER_TOKENS * 10 ^ dec) Hd1
              ltac:(lia)) as (Hdt & Hbt & _).
  destruct (ledger_submit_none s1 ALICE (AssetsTransfer id ALICE (TRANSFER_TOKENS * 10 ^ dec))
              eq_refl Hdt) as [Hinc2 Hs2].
  assert (Hq : @query_asset LedgerNode s0 id = true) by (simpl; by rewrite Hd).
  unfold process_asset. fold id dec.
  wp_run ltac:(first [apply toChainUnits_table; [by vm_compute | exact Ha]
                     | exact Hem | exact Het | exact Hinc1
                     | match goal with
                       | H : w_node ?x = snd _ |- includes_ok (w_node ?x) _ _ _ =>
                           assert (E1 : w_node x = s1) by (rewrite H; exact Hs1);
                           rewrite E1; exact Hinc2
                       end]).
  - exfalso. match goal with H : negb ?q = true |- _ =>
      change q with (@query_asset LedgerNode s0 id) in H; rewrite Hq in H; discriminate end.
  - match goal with
    | H1 : w_node ?x = snd _, H2 : w_node ?y = snd (submit (w_node ?x) _ _ _) |- _ =>
        assert (E1 : w_node x = s1) by (rewrite H1; exact Hs1);
        assert (E2 : w_node y = snd (submit_l s1 ALICE None
                                       (AssetsTransfer id ALICE (TRANSFER_TOKENS * 10 ^ dec))))
          by (rewrite H2, E1; reflexivity)
    end.
    simpl. rewrite E2, Hs2. change RECEIVER with ALICE.
    change (bal (with_chain ?X _ _ _) id ALICE) with (bal X id ALICE).
    rewrite Hbt, Hb1. reflexivity.
Qed.

(** A chain where Alice created SOL (asset 101) and holds none of it. *)
Definition sol_chain : LState :=
  with_assets (genesis []) (<[101 := mkAsset ALICE ALICE 1]> ∅).

Definition sol_lit : AssetLit.t := AssetLit.mk 101 "Solana" "SOL" 9.

Lemma mint_transfer_self_transfer_witness :
  In sol_lit mint_transfer_assets /\ l_fates sol_chain = []
  /\ l_assets sol_chain !! 101 = Some (mkAsset ALICE ALICE 1)
  /\ @wp LedgerNode unit (@process_asset LedgerNode ALICE sol_lit)
       (fun _ w' => bal (w_node w') 101 RECEIVER
                    = bal sol_chain 101 RECEIVER + MINT_TOKENS * 10 ^ 9)
       (start sol_chain).
Proof.
  assert (Ha : In sol_lit mint_transfer_assets) by (right; left; reflexivity).
  split; [exact Ha|]. split; [reflexivity|]. split; [reflexivity|].
  exact (mint_transfer_self_transfer sol_lit (mkAsset ALICE ALICE 1) (start sol_chain) Ha
           eq_refl eq_refl eq_refl ltac:(by vm_compute) ltac:(by vm_compute)).
Defined.

End MintTransferLedger.
