(* ===== verification/SetAssetMetadata.v ===== *)
(** * SetAssetMetadata: [src/set-asset-metadata.ts]

    For each asset of its table: set its metadata (resolved on
    [InBlock], no explicit nonce) and read it back.  No [try]: an error
    reaches [main().catch] and the connection stays open.  The closing
    line is printed after the disconnection. *)

From S2P Require Import Prelude Units Submit Script Ledger.

Module SetAssetMetadata.

Definition RPC : string := "ws://127.0.0.1:9944".
Definition ADMIN_SEED : string := "//Alice".

Definition site_metadata (nm : string) : Site :=
  mkSite "" (fun h => "Metadata set for " +++ nm +++ " in block " +++ h).

Section WithNode.
Context `{Node}.

(** Lines 25-54: the body of the loop for one asset. *)
Definition set_metadata (admin : Account) (a : AssetLit.t) : M unit :=
  log ("Setting metadata for " +++ AssetLit.name a +++ " (id="
       +++ pretty (AssetLit.id a) +++ ")") ;;
  tx <- build (AssetsSetMetadata (AssetLit.id a) (AssetLit.name a) (AssetLit.symbol a)
                 (AssetLit.decimals a)) ;;
  send_and_await (on_status_inblock (site_metadata (AssetLit.name a))) admin None tx ;;
  meta <- q_metadata (AssetLit.id a) ;;
  log ("Metadata confirmed: " +++ show_metadata meta).

(** [async function main()], lines 15-58. *)
Definition main : M unit :=
  log ("Connecting to node: " +++ RPC) ;;
  let admin := address_of_uri ADMIN_SEED in
  chain <- rpc_chain ;;
  log ("Connected to chain: " +++ chain) ;;
  log ("Using admin: " +++ admin) ;;
  for_each (set_metadata admin) set_metadata_assets ;;
  disconnect ;;
  log "All metadata updated successfully".

(** [main().catch(console.error)], line 60. *)
Definition run : M unit := catch_top main.

End WithNode.
End SetAssetMetadata.

Module SetAssetMetadataProofs.
Import SetAssetMetadata.

(** The metadata call of the table entry [a]. *)
Definition metadata_call (a : AssetLit.t) : Call :=
  AssetsSetMetadata (AssetLit.id a) (AssetLit.name a) (AssetLit.symbol a) (AssetLit.decimals a).

Section WithNode.
Context `{Node}.

(** C17: against a node that includes every
    transaction with a successful dispatch, [set-asset-metadata.ts]
    returns normally after one metadata call per table entry, in the
    table's order, ends with the connection closed and its closing line
    printed last (the disconnection itself prints nothing, so the order
    of the two last steps is not observable in the output). *)
Theorem set_metadata_sends (w0 : World) :
  (forall s n c, includes_ok s (address_of_uri ADMIN_SEED) n c) ->
  (forall c, encodable c = true) ->
  wp run (fun _ w => map snd (w_sent w) = map snd (w_sent w0) ++ map metadata_call set_metadata_assets
                     /\ w_connected w = false
                     /\ ends_with (w_out w) [Line (ConsoleLog "All metadata updated successfully")])
    w0.
Proof.
  intros Hinc Henc. apply wp_catch_top. unfold main.
  wp_run ltac:(first [apply Hinc | apply Henc]).
  eapply wp_mono.
  - apply (wp_for_each_sent _ (fun a => [metadata_call a])).
    intros a w Ha. unfold set_metadata.
    wp_run ltac:(first [apply Hinc | apply Henc]).
    sent_unfold. by rewrite map_app.
  - intros ? wl Hwl. wp_run ltac:(first [apply Hinc | apply Henc]).
    simpl. split; [|split; [done | apply ends_with_app]].
    rewrite Hwl, concat_map_singleton. sent_unfold. reflexivity.
Qed.

(** C18: against any node on which the
    metadata calls before entry [a] of the table succeed and the call of
    [a] is included with a dispatch error [e], [set-asset-metadata.ts]
    sends the calls up to [a] and none after it; the rejection is not
    caught in the loop: it leaves [main], [main().catch] prints it last,
    the run returns, and the connection is never closed (the closing line
    is never printed). *)
Theorem set_metadata_failure_escapes (pre post : list AssetLit.t) (a : AssetLit.t)
    (e : DispatchError) (w0 : World) :
  set_metadata_assets = pre ++ a :: post ->
  (forall s n b, In b pre -> includes_ok s (address_of_uri ADMIN_SEED) n (metadata_call b)) ->
  (forall s n, includes_err s (address_of_uri ADMIN_SEED) n (metadata_call a) e) ->
  (forall c, encodable c = true) ->
  wp run (fun _ w => map snd (w_sent w)
                     = map snd (w_sent w0) ++ map metadata_call pre ++ [metadata_call a]
                     /\ ends_with (w_out w) [ErrorWith "" (ErrDispatch e)]
                     /\ w_connected w = w_connected w0) w0.
Proof.
  intros Htab Hpre Hfail Henc. apply wp_catch_top_wpx. unfold main.
  wpx_run ltac:(apply Henc).
  rewrite Htab.
  apply (wpx_for_each_fail_at _ (fun b => [metadata_call b]) pre post a [metadata_call a] (ErrDispatch e)).
  - apply List.Forall_forall. intros b Hb w. unfold set_metadata.
    wp_run ltac:(first [apply Hpre; exact Hb | apply Henc]).
    sent_unfold. split; [by rewrite map_app | done].
  - intros w. unfold set_metadata.
    wpx_run ltac:(first [exact (Hfail _ _) | apply Henc]).
    sent_unfold. split; [done|]. split; [by rewrite map_app | done].
  - intros wh Hs Hc. simpl. split; [|split; [apply ends_with_app | done]].
    rewrite Hs, concat_map_singleton. by sent_unfold.
Qed.

End WithNode.
End SetAssetMetadataProofs.

Module SetAssetMetadataRuns.
Import SetAssetMetadata SetAssetMetadataProofs Ledger.

Lemma set_metadata_sends_witness :
  @wp AcceptNode unit (@run AcceptNode)
    (fun _ w => map snd (w_sent w)
                = map snd (@w_sent AcceptNode (@mkWorld AcceptNode 0 [] [] 0 true))
                  ++ map metadata_call set_metadata_assets
                /\ w_connected w = false
                /\ ends_with (w_out w) [Line (ConsoleLog "All metadata updated successfully")])
    (@mkWorld AcceptNode 0 [] [] 0 true).
Proof.
  apply (@set_metadata_sends AcceptNode);
    [intros s n c; exact (accept_node_includes_ok _ s ALICE n c) | intros c; reflexivity].
Defined.

(** A node on which the metadata call for SUI (the second entry) fails
    with [assets.NoPermission]. *)
Definition sol_lit : AssetLit.t := AssetLit.mk 101 "Solana" "SOL" 9.
Definition sui_lit : AssetLit.t := AssetLit.mk 104 "Sui" "SUI" 9.
Definition no_permission : DispatchError := DEModule (mkModuleError IDX_ASSETS 2).
Definition fail_sui (c : Call) : option DispatchError :=
  if decide (c = metadata_call sui_lit) then Some no_permission else None.
Definition SuiFails : Node := TestNode (fun _ => false) fail_sui.

Lemma set_metadata_failure_escapes_witness :
  @wp SuiFails unit (@run SuiFails)
    (fun _ w => map snd (w_sent w)
                = map snd (@w_sent SuiFails (@mkWorld SuiFails 0 [] [] 0 true))
                  ++ map metadata_call [sol_lit] ++ [metadata_call sui_lit]
                /\ ends_with (w_out w) [ErrorWith "" (ErrDispatch no_permission)]
                /\ w_connected w = @w_connected SuiFails (@mkWorld SuiFails 0 [] [] 0 true))
    (@mkWorld SuiFails 0 [] [] 0 true).
Proof.
  apply (@set_metadata_failure_escapes SuiFails [sol_lit] (tl (tl set_metadata_assets))
           sui_lit no_permission (@mkWorld SuiFails 0 [] [] 0 true)).
  - reflexivity.
  - intros s n b [<- | []]. apply test_node_includes_ok. by vm_compute.
  - intros s n. apply test_node_includes_err. by vm_compute.
  - intros c. reflexivity.
Defined.

End SetAssetMetadataRuns.
